(** * drone-cache, S3 storage backend ([storage/backend/s3/s3.go])

    A shallow embedding of the S3 backend: the constructor [New] and the
    three operations [Get], [Put] and [Exists], followed by the properties
    of the backend that the specification states.

    Conventions of the embedding.
    - Go strings are [string]; [s != ""] is [negb (s =? "")].
    - A Go [error] value is a term of [error]; [nil] is [None] of
      [option error].
    - A pointer that the code dereferences ([*out.ETag]) is an [option];
      dereferencing [None] panics.  A call that can panic returns [exec].
    - The AWS SDK, the clock and the remote service are outside the
      repository: what they answer is an input of the embedded function
      (a [Variable] of the enclosing [Section]). *)

From Stdlib Require Import String Ascii ZArith Bool List.
From stdpp Require Import gmap strings.
Import ListNotations.

Local Open Scope string_scope.

(** ** Go values *)

(** [error]: the dynamic types of error values the backend tells apart.
    [err.(awserr.Error)] succeeds on [AwsErr] only; [fmt.Errorf("ctx, %w", e)]
    builds [WrapErr ctx e], whose [Unwrap] is [e]. *)
Inductive error : Type :=
| AwsErr (code message : string)
| OtherErr (message : string)
| WrapErr (context : string) (cause : error).

Definition Unwrap (e : error) : option error :=
  match e with
  | WrapErr _ cause => Some cause
  | _ => None
  end.

(** A Go call either returns or panics. *)
Inductive exec (A : Type) : Type :=
| Returns (a : A)
| Panics (reason : string).
Arguments Returns {A} a.
Arguments Panics {A} reason.

#[global] Instance exec_ret : MRet exec := fun A a => Returns a.

#[global] Instance exec_bind : MBind exec := fun A B k m =>
  match m with
  | Returns a => k a
  | Panics r => Panics r
  end.

Definition nil_deref : string := "invalid memory address or nil pointer dereference".

(** [time.Time] as the number of nanoseconds since the zero instant, so that
    the zero value of the type is [0]; [time.Duration] is a count of
    nanoseconds. *)
Definition Time : Type := Z.
Definition Duration : Type := Z.
Definition zeroTime : Time := 0%Z.
Definition Add (t : Time) (d : Duration) : Time := (t + d)%Z.

(** ** Logging (go-kit) *)

Inductive Level : Type := LevelDebug | LevelInfo | LevelWarn | LevelError.

Inductive Logger : Type := LoggerHandle (name : string).

(** ** Configuration *)

(** Modelled from the spec: the [Config] struct is declared in a file of the
    package that is not s3.go; these are the fields [New] reads (spec,
    section 6, "Configuration surface"). *)
Module Config.
Record t : Type := mk {
  ACL : string;
  Bucket : string;
  Encryption : string;
  Endpoint : string;
  Key : string;
  Region : string;
  Secret : string;
  TTL : string;
  PathStyle : bool
}.
End Config.

(** A value logged under a key: a string, or [fmt.Sprintf("%#v", c)]. *)
Inductive LogValue : Type :=
| LogStr (s : string)
| LogGoSyntax (c : Config.t).

Record LogLine : Type := {
  line_level : Level;
  line_keyvals : list (string * LogValue)
}.

(** ** The SDK objects the constructor builds *)

Inductive credentials : Type :=
| AnonymousCredentials
| StaticCredentials (id secret token : string).

Inductive LogLevelType : Type := LogDebugWithHTTPBody.

Module AwsConfig.
Record t : Type := mk {
  Region : string;
  Endpoint : string;
  DisableSSL : bool;
  S3ForcePathStyle : bool;
  Credentials : credentials;
  LogLevel : option LogLevelType
}.

Definition WithCredentials (c : t) (cr : credentials) : t :=
  mk (Region c) (Endpoint c) (DisableSSL c) (S3ForcePathStyle c) cr (LogLevel c).

Definition WithLogLevel (c : t) (lv : LogLevelType) : t :=
  mk (Region c) (Endpoint c) (DisableSSL c) (S3ForcePathStyle c)
     (Credentials c) (Some lv).
End AwsConfig.

Inductive Session : Type := SessionOf (options : unit).

Record S3 : Type := {
  client_session : Session;
  client_config : AwsConfig.t
}.

Record Backend : Type := {
  logger : Logger;
  bucket : string;
  acl : string;
  encryption : string;
  client : S3;
  expiresAt : Time
}.

Definition nonempty (s : string) : bool := negb (s =? "").

Definition warn_anonymous : LogLine :=
  {| line_level := LevelWarn;
     line_keyvals :=
       [("msg", LogStr "aws key and/or Secret not provided (falling back to anonymous credentials)")] |}.

Definition debug_config (c : Config.t) : LogLine :=
  {| line_level := LevelDebug;
     line_keyvals := [("msg", LogStr "s3 backend"); ("config", LogGoSyntax c)] |}.

(** ** [New] *)

Section Construction.
(** [time.ParseDuration]. *)
Variable ParseDuration : string -> Duration + error.
(** [time.Now()], read when the TTL is turned into an instant. *)
Variable now : Time.
(** [session.NewSessionWithOptions(session.Options{})]. *)
Variable NewSession : Session + error.

(** The result is the pair [New] returns (or a panic of [session.Must])
    and the lines written to the logger, oldest first. *)
Definition New (l : Logger) (c : Config.t) (debug : bool)
  : exec (option Backend * option error) * list LogLine :=
  let expiresAt0 := zeroTime in
  let conf :=
    AwsConfig.mk (Config.Region c) (Config.Endpoint c)
      (negb (String.prefix "https://" (Config.Endpoint c)))
      (Config.PathStyle c) AnonymousCredentials None in
  let '(conf, out) :=
    if nonempty (Config.Key c) && nonempty (Config.Secret c)
    then (AwsConfig.WithCredentials conf
            (StaticCredentials (Config.Key c) (Config.Secret c) ""), [])
    else (conf, [warn_anonymous]) in
  let out := (out ++ [debug_config c])%list in
  let conf :=
    if debug then AwsConfig.WithLogLevel conf LogDebugWithHTTPBody else conf in
  let ttl : Time + error :=
    if nonempty (Config.TTL c)
    then match ParseDuration (Config.TTL c) with
         | inr err => inr err
         | inl duration => inl (Add now duration)
         end
    else inl expiresAt0 in
  match ttl with
  | inr err => (Returns (None, Some err), out)
  | inl expiresAt1 =>
      match NewSession with
      | inr err => (Panics "session.Must", out)
      | inl sess =>
          (Returns
             (Some {| logger := l;
                      bucket := Config.Bucket c;
                      acl := Config.ACL c;
                      encryption := Config.Encryption c;
                      client := {| client_session := sess; client_config := conf |};
                      expiresAt := expiresAt1 |},
              None),
           out)
      end
  end.
End Construction.

(** ** The remote store, as the SDK client reaches it *)

Definition Body : Type := list Byte.byte.

(** [context.Context] as the callee sees it when the call is made. *)
Inductive Context : Type :=
| CtxLive
| CtxDone (err : error).

Module UploadInput.
Record t : Type := mk {
  Bucket : string;
  Key : string;
  ACL : string;
  Body : Body;
  ServerSideEncryption : option string
}.

Definition WithServerSideEncryption (i : t) (v : string) : t :=
  mk (Bucket i) (Key i) (ACL i) (Body i) (Some v).
End UploadInput.

Record LifecycleRule : Type := {
  Filter_Prefix : string;
  Expiration_Date : Time
}.

Record BucketLifecycleConfiguration : Type := {
  Rules : list LifecycleRule
}.

Module PutBucketLifecycleConfigurationInput.
Record t : Type := mk {
  Bucket : string;
  LifecycleConfiguration : BucketLifecycleConfiguration
}.
End PutBucketLifecycleConfigurationInput.

Module HeadObjectInput.
Record t : Type := mk { Bucket : string; Key : string }.
End HeadObjectInput.

(** [ETag] is a [*string]: [None] is the nil pointer. *)
Record HeadObjectOutput : Type := { ETag : option string }.

Module GetObjectInput.
Record t : Type := mk { Bucket : string; Key : string }.
End GetObjectInput.

Record GetObjectOutput : Type := { Output_Body : Body }.

(** The requests a client sends, in the order they are sent. *)
Inductive Request : Type :=
| ReqUpload (ctx : Context) (input : UploadInput.t)
| ReqPutBucketLifecycleConfiguration (input : PutBucketLifecycleConfigurationInput.t)
| ReqHeadObject (ctx : Context) (input : HeadObjectInput.t)
| ReqDeleteObject (bucket key : string).

(** The store: objects by bucket and key, one lifecycle configuration per
    bucket, and the requests received so far (newest last). *)
Record Service : Type := {
  objects : gmap (string * string) Body;
  lifecycles : gmap string BucketLifecycleConfiguration;
  requests : list Request
}.

Definition received (q : Request) (s : Service) : Service :=
  {| objects := objects s;
     lifecycles := lifecycles s;
     requests := (requests s ++ [q])%list |}.

Definition store_object (bkt key : string) (content : Body) (s : Service) : Service :=
  {| objects := <[(bkt, key) := content]> (objects s);
     lifecycles := lifecycles s;
     requests := requests s |}.

Definition store_lifecycle (bkt : string) (cfg : BucketLifecycleConfiguration)
    (s : Service) : Service :=
  {| objects := objects s;
     lifecycles := <[bkt := cfg]> (lifecycles s);
     requests := requests s |}.

(** [awsErr, ok := err.(awserr.Error)]: [None] is the nil interface value
    that the failed assertion leaves in [awsErr]. *)
Definition as_awserr (err : error) : option (string * string) :=
  match err with
  | AwsErr code message => Some (code, message)
  | _ => None
  end.

(** [awsErr.Code()]: a method call on a nil interface value panics. *)
Definition Code (awsErr : option (string * string)) : exec string :=
  match awsErr with
  | Some (code, _) => Returns code
  | None => Panics nil_deref
  end.

(** [*p] for a [*string]. *)
Definition deref (p : option string) : exec string :=
  match p with
  | Some v => Returns v
  | None => Panics nil_deref
  end.

Definition ErrCodeNoSuchKey : string := "NoSuchKey".

Section Operations.
(** What the store answers.  A failed request changes nothing in the
    store; a successful upload stores the body under the key, a successful
    lifecycle update replaces the configuration of the bucket. *)
Variable upload_failure : Context -> UploadInput.t -> Service -> option error.
Variable lifecycle_failure :
  PutBucketLifecycleConfigurationInput.t -> Service -> option error.
Variable head_answer :
  Context -> HeadObjectInput.t -> Service -> HeadObjectOutput + error.

Definition UploadWithContext (ctx : Context) (input : UploadInput.t) (s : Service)
  : option error * Service :=
  let s := received (ReqUpload ctx input) s in
  match upload_failure ctx input s with
  | Some err => (Some err, s)
  | None =>
      (None,
       store_object (UploadInput.Bucket input) (UploadInput.Key input)
         (UploadInput.Body input) s)
  end.

Definition PutBucketLifecycleConfiguration
    (input : PutBucketLifecycleConfigurationInput.t) (s : Service)
  : option error * Service :=
  let s := received (ReqPutBucketLifecycleConfiguration input) s in
  match lifecycle_failure input s with
  | Some err => (Some err, s)
  | None =>
      (None,
       store_lifecycle (PutBucketLifecycleConfigurationInput.Bucket input)
         (PutBucketLifecycleConfigurationInput.LifecycleConfiguration input) s)
  end.

Definition HeadObjectWithContext (ctx : Context) (input : HeadObjectInput.t)
    (s : Service) : (HeadObjectOutput + error) * Service :=
  let s := received (ReqHeadObject ctx input) s in
  (head_answer ctx input s, s).

(** *** [Put] *)

(** The upload request of lines 115-125. *)
Definition upload_input (b : Backend) (p : string) (r : Body) : UploadInput.t :=
  let input := UploadInput.mk (bucket b) p (acl b) r None in
  if nonempty (encryption b)
  then UploadInput.WithServerSideEncryption input (encryption b)
  else input.

(** The lifecycle request of lines 133-149; [Date: &b.expiresAt] is read
    when the request is sent. *)
Definition lifecycle_input (b : Backend) (p : string)
  : PutBucketLifecycleConfigurationInput.t :=
  let lifecycleConfiguration :=
    {| Rules := [ {| Filter_Prefix := p; Expiration_Date := expiresAt b |} ] |} in
  PutBucketLifecycleConfigurationInput.mk (bucket b) lifecycleConfiguration.

Definition Put (b : Backend) (ctx : Context) (p : string) (r : Body) (s : Service)
  : option error * Service :=
  match UploadWithContext ctx (upload_input b p r) s with
  | (Some err, s) => (Some (WrapErr "put the object, " err), s)
  | (None, s) =>
      match PutBucketLifecycleConfiguration (lifecycle_input b p) s with
      | (Some err, s) => (Some (WrapErr "put the object, " err), s)
      | (None, s) => (None, s)
      end
  end.

(** *** [Exists] *)

(** The condition of the inner [if]:
    [ok && awsErr.Code() == s3.ErrCodeNoSuchKey || awsErr.Code() == "NotFound"],
    which Go reads as [(ok && ...) || ...]; both operators evaluate their
    right operand only when the left one does not decide. *)
Definition is_not_found (err : error) : exec bool :=
  let awsErr := as_awserr err in
  let ok := match awsErr with Some _ => true | None => false end in
  left_operand ←
    (if ok
     then code ← Code awsErr; mret (code =? ErrCodeNoSuchKey)
     else mret false);
  if left_operand : bool
  then mret true
  else code ← Code awsErr; mret (code =? "NotFound").

Definition Exists (b : Backend) (ctx : Context) (p : string) (s : Service)
  : exec (bool * option error) * Service :=
  let input := HeadObjectInput.mk (bucket b) p in
  match HeadObjectWithContext ctx input s with
  | (inr err, s) =>
      (not_found ← is_not_found err;
       if not_found : bool
       then mret (false, None)
       else mret (false, Some (WrapErr "head the object, " err)),
       s)
  | (inl out, s) =>
      (etag ← deref (ETag out); mret (nonempty etag, None), s)
  end.

(** What the probe of [Exists] is answered. *)
Definition probe (b : Backend) (ctx : Context) (p : string) (s : Service)
  : HeadObjectOutput + error :=
  fst (HeadObjectWithContext ctx (HeadObjectInput.mk (bucket b) p) s).

(** A sequence of [Put] calls through one backend: each call is a key, a
    body and the context it is made with.  The results are returned in
    call order. *)
Fixpoint Puts (b : Backend) (calls : list (Context * string * Body)) (s : Service)
  : list (option error) * Service :=
  match calls with
  | [] => ([], s)
  | (ctx, p, r) :: rest =>
      let (res, s) := Put b ctx p r s in
      let (ress, s) := Puts b rest s in
      (res :: ress, s)
  end.
End Operations.

(** ** [Get]

    [Get] starts one goroutine and then blocks in a [select] over the
    unbuffered channel [errCh] and [ctx.Done()].  The embedding is the
    interleaving semantics of these two lines of execution: a state holds
    the program point of the goroutine, the channel, the context and what
    the caller has been returned; a scheduler picks who moves next. *)

(** What [ctx.Err()] returns once [ctx.Done()] is closed. *)
Inductive CtxCause : Type := Canceled | DeadlineExceeded.

Definition ctx_error (c : CtxCause) : error :=
  match c with
  | Canceled => OtherErr "context canceled"
  | DeadlineExceeded => OtherErr "context deadline exceeded"
  end.

(** Program points of the goroutine.

    Modelled from the spec: [internal.CloseWithErrLogf] is declared outside
    s3.go; by section 4.2 it closes the response body and only logs a
    failure of the close. *)
Inductive Goroutine : Type :=
| AtGetObject                              (* before line 89 *)
| AtSend (err : error) (body_open : bool)  (* blocked in [errCh <- err] *)
| AtCopy                                   (* before line 97 *)
| AtCloseBody                              (* deferred [internal.CloseWithErrLogf] *)
| AtCloseChannel                           (* deferred [close(errCh)] *)
| Exited.

Record GetState : Type := {
  goroutine : Goroutine;
  errCh_closed : bool;
  body_closed : bool;
  ctx_state : Context;
  returned : option (option error)   (* [None]: the caller is in [select] *)
}.

Inductive Move : Type :=
| RunGoroutine   (* the goroutine runs to its next program point; at a send
                    this is the rendezvous with the caller's first case *)
| Cancel         (* the context is cancelled or its deadline passes *)
| ReceiveClosed  (* the caller's first case fires on the closed channel *)
| ReceiveDone.   (* the caller's second case fires *)

Definition get_start : GetState :=
  {| goroutine := AtGetObject;
     errCh_closed := false;
     body_closed := false;
     ctx_state := CtxLive;
     returned := None |}.

Section GetRace.
(** Result of [b.client.GetObjectWithContext(ctx, in)]. *)
Variable fetched : GetObjectOutput + error.
(** Error of [io.Copy(w, out.Body)] ([None]: the copy completed). *)
Variable copied : option error.
(** Why the context ends, if it does. *)
Variable cause : CtxCause.

Definition with_goroutine (g : Goroutine) (s : GetState) : GetState :=
  {| goroutine := g;
     errCh_closed := errCh_closed s;
     body_closed := body_closed s;
     ctx_state := ctx_state s;
     returned := returned s |}.

Definition with_returned (r : option error) (s : GetState) : GetState :=
  {| goroutine := goroutine s;
     errCh_closed := errCh_closed s;
     body_closed := body_closed s;
     ctx_state := ctx_state s;
     returned := Some r |}.

(** One move; [None] when the move is not enabled in the state. *)
Definition step (m : Move) (s : GetState) : option GetState :=
  match m with
  | RunGoroutine =>
      match goroutine s with
      | AtGetObject =>
          match fetched with
          | inr err =>
              Some (with_goroutine (AtSend (WrapErr "get the object, " err) false) s)
          | inl _ => Some (with_goroutine AtCopy s)
          end
      | AtCopy =>
          match copied with
          | Some err =>
              Some (with_goroutine (AtSend (WrapErr "copy the object, " err) true) s)
          | None => Some (with_goroutine AtCloseBody s)
          end
      | AtSend err body_open =>
          match returned s with
          | None =>
              Some (with_returned (Some err)
                      (with_goroutine
                         (if body_open then AtCloseBody else AtCloseChannel) s))
          | Some _ => None
          end
      | AtCloseBody =>
          Some {| goroutine := AtCloseChannel;
                  errCh_closed := errCh_closed s;
                  body_closed := true;
                  ctx_state := ctx_state s;
                  returned := returned s |}
      | AtCloseChannel =>
          Some {| goroutine := Exited;
                  errCh_closed := true;
                  body_closed := body_closed s;
                  ctx_state := ctx_state s;
                  returned := returned s |}
      | Exited => None
      end
  | Cancel =>
      match ctx_state s with
      | CtxLive =>
          Some {| goroutine := goroutine s;
                  errCh_closed := errCh_closed s;
                  body_closed := body_closed s;
                  ctx_state := CtxDone (ctx_error cause);
                  returned := returned s |}
      | CtxDone _ => None
      end
  | ReceiveClosed =>
      match returned s, errCh_closed s with
      | None, true => Some (with_returned None s)
      | _, _ => None
      end
  | ReceiveDone =>
      match returned s, ctx_state s with
      | None, CtxDone err => Some (with_returned (Some err) s)
      | _, _ => None
      end
  end.

(** A schedule, run from a state. *)
Fixpoint run (sched : list Move) (s : GetState) : option GetState :=
  match sched with
  | [] => Some s
  | m :: rest =>
      match step m s with
      | Some s' => run rest s'
      | None => None
      end
  end.

(** The states a call of [Get] can be in. *)
Definition reachable (s : GetState) : Prop :=
  exists sched, run sched get_start = Some s.

(** The four results of [Get], told apart by the value returned. *)
Definition transfer_completed (r : option error) : Prop :=
  r = None /\ (exists out, fetched = inl out) /\ copied = None.

Definition fetch_failed (r : option error) : Prop :=
  exists err, fetched = inr err /\ r = Some (WrapErr "get the object, " err).

Definition copy_failed (r : option error) : Prop :=
  exists out err,
    fetched = inl out /\ copied = Some err /\
    r = Some (WrapErr "copy the object, " err).

Definition cancelled (s : GetState) (r : option error) : Prop :=
  ctx_state s = CtxDone (ctx_error cause) /\ r = Some (ctx_error cause).

(** The error a send statement of the goroutine carries. *)
Definition transfer_error (err : error) : Prop :=
  fetch_failed (Some err) \/ copy_failed (Some err).

(** After its last send statement the goroutine either has handed its
    error to the caller or had none to hand over. *)
Definition past_sends (s : GetState) : Prop :=
  returned s <> None \/ ((exists out, fetched = inl out) /\ copied = None).

(** The invariant of the interleaving. *)
Definition get_inv (s : GetState) : Prop :=
  (forall r, returned s = Some r ->
     transfer_completed r \/ fetch_failed r \/ copy_failed r \/ cancelled s r) /\
  (forall err, ctx_state s = CtxDone err -> err = ctx_error cause) /\
  match goroutine s with
  | AtGetObject => errCh_closed s = false
  | AtCopy => errCh_closed s = false /\ exists out, fetched = inl out
  | AtSend err _ => errCh_closed s = false /\ transfer_error err
  | AtCloseBody | AtCloseChannel => errCh_closed s = false /\ past_sends s
  | Exited => errCh_closed s = true /\ past_sends s
  end.
End GetRace.

(** [Get]: the request is built from the backend and the key, the store
    answers it, and the call proceeds along a schedule; the result is the
    state reached, whose field [returned] is what the caller has got. *)
Definition get_input (b : Backend) (p : string) : GetObjectInput.t :=
  GetObjectInput.mk (bucket b) p.

Definition Get (get_answer : GetObjectInput.t -> GetObjectOutput + error)
    (copied : option error) (cause : CtxCause)
    (b : Backend) (p : string) (sched : list Move) : option GetState :=
  run (get_answer (get_input b p)) copied cause sched get_start.

Definition exactly_one (P1 P2 P3 P4 : Prop) : Prop :=
  (P1 \/ P2 \/ P3 \/ P4) /\
  ~ (P1 /\ P2) /\ ~ (P1 /\ P3) /\ ~ (P1 /\ P4) /\
  ~ (P2 /\ P3) /\ ~ (P2 /\ P4) /\ ~ (P3 /\ P4).

(** ** Concrete inputs used by the examples *)

(** A duration parser that knows two TTLs and rejects everything else. *)
Definition hour : Duration := 3600000000000%Z.

Definition sampleParseDuration (s : string) : Duration + error :=
  if s =? "24h" then inl (24 * hour)%Z
  else if s =? "1h" then inl hour
  else inr (OtherErr ("time: invalid duration " ++ s)).

Definition sampleNow : Time := 63900000000000000000%Z.

Definition sampleSession : Session + error := inl (SessionOf tt).

Definition sampleLogger : Logger := LoggerHandle "drone-cache".

Definition sampleConfig (key secret ttl endpoint : string) : Config.t :=
  Config.mk "private" "cache" "" endpoint key "eu-west-1" secret ttl false.

Definition emptyService : Service :=
  {| objects := ∅; lifecycles := ∅; requests := [] |}.

Definition never_fails {A B C : Type} : A -> B -> C -> option error :=
  fun _ _ _ => None.

Definition lifecycle_always_fails (e : error)
  : PutBucketLifecycleConfigurationInput.t -> Service -> option error :=
  fun _ _ => Some e.

Definition lifecycle_never_fails
  : PutBucketLifecycleConfigurationInput.t -> Service -> option error :=
  fun _ _ => None.

Definition head_answers (a : HeadObjectOutput + error)
  : Context -> HeadObjectInput.t -> Service -> HeadObjectOutput + error :=
  fun _ _ _ => a.

(** The backend [New] builds from [sampleConfig] at an https endpoint. *)
Definition sampleBackend (at_ : Time) : Backend :=
  {| logger := sampleLogger;
     bucket := "cache";
     acl := "private";
     encryption := "";
     client :=
       {| client_session := SessionOf tt;
          client_config :=
            AwsConfig.mk "eu-west-1" "https://s3.example" false false
              AnonymousCredentials None |};
     expiresAt := at_ |}.

(** ** Notions used to state further properties *)

(** A store whose HEAD answers agree with the objects it holds: "NotFound"
    for a key it does not hold, a non-empty [ETag] for one it holds. *)
Definition answers_from_objects
    (head_answer : Context -> HeadObjectInput.t -> Service -> HeadObjectOutput + error)
  : Prop :=
  forall ctx input s,
    match objects s !! (HeadObjectInput.Bucket input, HeadObjectInput.Key input) with
    | Some _ =>
        exists etag, etag <> "" /\ head_answer ctx input s = inl {| ETag := Some etag |}
    | None =>
        exists message, head_answer ctx input s = inr (AwsErr "NotFound" message)
    end.

Definition sampleHead
  : Context -> HeadObjectInput.t -> Service -> HeadObjectOutput + error :=
  fun _ input s =>
    match objects s !! (HeadObjectInput.Bucket input, HeadObjectInput.Key input) with
    | Some _ => inl {| ETag := Some "d41d8cd98f00b204e9800998ecf8427e" |}
    | None => inr (AwsErr "NotFound" "Not Found")
    end.

(** What the goroutine of [Get] has to report: nil, or the wrapped error of
    the step that failed. *)
Definition transfer_result (fetched : GetObjectOutput + error)
    (copied : option error) : option error :=
  match fetched with
  | inr err => Some (WrapErr "get the object, " err)
  | inl _ =>
      match copied with
      | Some err => Some (WrapErr "copy the object, " err)
      | None => None
      end
  end.


(** The goroutine is past its send statements. *)
Definition past_send (g : Goroutine) : Prop :=
  match g with
  | AtCloseBody | AtCloseChannel | Exited => True
  | AtGetObject | AtCopy | AtSend _ _ => False
  end.

(** Where the goroutine is relative to its deferred calls, and what the
    caller can have been returned by then. *)
Definition cleanup_inv (fetched : GetObjectOutput + error) (copied : option error)
    (cause : CtxCause) (s : GetState) : Prop :=
  (forall err, ctx_state s = CtxDone err -> err = ctx_error cause) /\
  (errCh_closed s = true <-> goroutine s = Exited) /\
  (forall r,
     returned s = Some r ->
     (r = Some (ctx_error cause) /\ ctx_state s = CtxDone (ctx_error cause)) \/
     (r = transfer_result fetched copied /\ past_send (goroutine s) /\
      (r = None -> goroutine s = Exited))) /\
  match goroutine s with
  | AtGetObject => body_closed s = false
  | AtCopy => body_closed s = false /\ exists out, fetched = inl out
  | AtSend err body_open =>
      body_closed s = false /\
      Some err = transfer_result fetched copied /\
      if body_open
      then exists out, fetched = inl out
      else exists cause, fetched = inr cause
  | AtCloseBody =>
      body_closed s = false /\
      (exists out, fetched = inl out) /\
      (transfer_result fetched copied <> None ->
       returned s = Some (transfer_result fetched copied))
  | AtCloseChannel | Exited =>
      ((exists out, fetched = inl out) -> body_closed s = true) /\
      (transfer_result fetched copied <> None ->
       returned s = Some (transfer_result fetched copied))
  end.

(** * Properties *)

(** ** Strings *)

Lemma nonempty_true (s : string) : nonempty s = true <-> s <> "".
Proof.
  unfold nonempty. rewrite negb_true_iff.
  destruct (String.eqb_spec s ""); split; congruence.
Qed.

Lemma nonempty_false (s : string) : nonempty s = false <-> s = "".
Proof.
  unfold nonempty. rewrite negb_false_iff. apply String.eqb_eq.
Qed.

Lemma prefix_begins (p s : string) :
  String.prefix p s = true <-> exists rest, s = p ++ rest.
Proof.
  revert s. induction p as [|a p IH]; intros s.
  - destruct s; split; eauto.
  - destruct s as [|b s].
    + split; [discriminate | intros [rest H]; discriminate].
    + cbn [String.prefix String.append].
      destruct (Ascii.ascii_dec a b) as [->|Hab].
      * rewrite IH. split; intros [rest H]; exists rest; [now subst | now inversion H].
      * split; [discriminate | intros [rest H]; inversion H; congruence].
Qed.

(** ** Construction *)

Section ConstructionFacts.
Variable ParseDuration : string -> Duration + error.
Variable now : Time.
Variable NewSession : Session + error.
Variables (l : Logger) (c : Config.t) (debug : bool).

(** The configuration handed to [s3.New], whenever a backend is built. *)
Lemma New_built (b : Backend) :
  fst (New ParseDuration now NewSession l c debug) = Returns (Some b, None) ->
  bucket b = Config.Bucket c /\
  AwsConfig.DisableSSL (client_config (client b))
    = negb (String.prefix "https://" (Config.Endpoint c)) /\
  AwsConfig.Credentials (client_config (client b))
    = (if nonempty (Config.Key c) && nonempty (Config.Secret c)
       then StaticCredentials (Config.Key c) (Config.Secret c) ""
       else AnonymousCredentials) /\
  expiresAt b
    = (if nonempty (Config.TTL c)
       then match ParseDuration (Config.TTL c) with
            | inl d => Add now d
            | inr _ => zeroTime
            end
       else zeroTime).
Proof.
  unfold New.
  destruct (nonempty (Config.Key c) && nonempty (Config.Secret c));
    destruct (nonempty (Config.TTL c));
    try destruct (ParseDuration (Config.TTL c));
    destruct NewSession; destruct debug; simpl;
    intros H; inversion H; subst; simpl; auto.
Qed.

(** The lines logged do not depend on how construction ends. *)
Lemma New_logs :
  snd (New ParseDuration now NewSession l c debug)
  = ((if nonempty (Config.Key c) && nonempty (Config.Secret c)
      then [] else [warn_anonymous]) ++ [debug_config c])%list.
Proof.
  unfold New.
  destruct (nonempty (Config.Key c) && nonempty (Config.Secret c));
    destruct (nonempty (Config.TTL c));
    try destruct (ParseDuration (Config.TTL c));
    destruct NewSession; reflexivity.
Qed.

(** With a usable TTL and a session, a backend is built. *)
Lemma New_succeeds (sess : Session) :
  NewSession = inl sess ->
  Config.TTL c = "" \/ (exists d, ParseDuration (Config.TTL c) = inl d) ->
  exists b, fst (New ParseDuration now NewSession l c debug) = Returns (Some b, None).
Proof.
  intros -> Httl. unfold New.
  destruct (nonempty (Config.Key c) && nonempty (Config.Secret c));
    destruct (nonempty (Config.TTL c)) eqn:Hne;
    try (destruct Httl as [Httl | [d Httl]];
         [ apply nonempty_true in Hne; contradiction | rewrite Httl ]);
    simpl; eauto.
Qed.
End ConstructionFacts.

(** C8.  A non-empty TTL that [time.ParseDuration] rejects makes [New]
    return [(nil, err)]: the parse error and no backend, whatever the rest
    of the configuration and the session.  With an empty TTL the parser and
    the clock play no part in [New] (its result is the same for any two of
    them), and the backend built has the zero [expiresAt]. *)
Theorem New_ttl_string
    (parse parse' : string -> Duration + error) (now now' : Time)
    (NewSession : Session + error) (l : Logger) (c : Config.t) (debug : bool) :
  (Config.TTL c <> "" ->
   forall err, parse (Config.TTL c) = inr err ->
     fst (New parse now NewSession l c debug) = Returns (None, Some err)) /\
  (Config.TTL c = "" ->
   New parse now NewSession l c debug = New parse' now' NewSession l c debug /\
   forall sess, NewSession = inl sess ->
     exists b,
       fst (New parse now NewSession l c debug) = Returns (Some b, None) /\
       expiresAt b = zeroTime).
Proof.
  split.
  - intros Hne err Herr. apply nonempty_true in Hne.
    unfold New. rewrite Hne, Herr.
    destruct (nonempty (Config.Key c) && nonempty (Config.Secret c)); reflexivity.
  - intros Hempty. pose proof (proj2 (nonempty_false _) Hempty) as Hne. split.
    + unfold New. rewrite Hne. reflexivity.
    + intros sess Hsess.
      destruct (New_succeeds parse now NewSession l c debug sess Hsess (or_introl Hempty))
        as [b Hb].
      exists b. split; [exact Hb|].
      apply New_built in Hb. destruct Hb as (_ & _ & _ & Hexp).
      rewrite Hexp, Hne. reflexivity.
Qed.

Lemma New_ttl_string_witness :
  fst (New sampleParseDuration sampleNow sampleSession sampleLogger
         (sampleConfig "" "" "a day" "https://s3.example") false)
    = Returns (None, Some (OtherErr "time: invalid duration a day")) /\
  exists b,
    fst (New sampleParseDuration sampleNow sampleSession sampleLogger
           (sampleConfig "" "" "" "https://s3.example") false)
      = Returns (Some b, None) /\
    expiresAt b = zeroTime.
Proof.
  split.
  - apply (proj1 (New_ttl_string sampleParseDuration sampleParseDuration
                    sampleNow sampleNow sampleSession sampleLogger
                    (sampleConfig "" "" "a day" "https://s3.example") false)).
    + discriminate.
    + reflexivity.
  - apply (proj2 (New_ttl_string sampleParseDuration sampleParseDuration
                    sampleNow sampleNow sampleSession sampleLogger
                    (sampleConfig "" "" "" "https://s3.example") false)
             eq_refl) with (sess := SessionOf tt).
    reflexivity.
Defined.

(** C9, as stated, fails: a configuration without credentials whose TTL does
    not parse is refused, so "no credential pair" does not by itself give a
    successful construction. *)
Lemma New_anonymous_refused_on_bad_ttl :
  ~ (forall (parse : string -> Duration + error) (now : Time)
            (NewSession : Session + error) (l : Logger) (c : Config.t)
            (debug : bool),
       Config.Key c = "" -> Config.Secret c = "" ->
       exists b,
         fst (New parse now NewSession l c debug) = Returns (Some b, None) /\
         AwsConfig.Credentials (client_config (client b)) = AnonymousCredentials).
Proof.
  intros H.
  destruct (H sampleParseDuration sampleNow sampleSession sampleLogger
              (sampleConfig "" "" "a day" "https://s3.example") false
              eq_refl eq_refl) as (b & Hb & _).
  discriminate Hb.
Qed.

(** C9, amended.  When the access key or the secret is empty, [New] logs the
    anonymous-credentials warning at level warn, however construction ends;
    and when moreover the TTL is empty or parses and the SDK session is
    created, [New] returns a backend whose client uses anonymous credentials.
    A backend that [New] returns has static credentials only when both the
    key and the secret are non-empty, and then they are that pair. *)
Theorem New_credentials
    (parse : string -> Duration + error) (now : Time)
    (NewSession : Session + error) (l : Logger) (c : Config.t) (debug : bool) :
  (Config.Key c = "" \/ Config.Secret c = "" ->
   In warn_anonymous (snd (New parse now NewSession l c debug)) /\
   line_level warn_anonymous = LevelWarn /\
   forall sess,
     NewSession = inl sess ->
     Config.TTL c = "" \/ (exists d, parse (Config.TTL c) = inl d) ->
     exists b,
       fst (New parse now NewSession l c debug) = Returns (Some b, None) /\
       AwsConfig.Credentials (client_config (client b)) = AnonymousCredentials) /\
  (forall b id secret token,
     fst (New parse now NewSession l c debug) = Returns (Some b, None) ->
     AwsConfig.Credentials (client_config (client b))
       = StaticCredentials id secret token ->
     Config.Key c <> "" /\ Config.Secret c <> "" /\
     id = Config.Key c /\ secret = Config.Secret c /\ token = "").
Proof.
  split.
  - intros Hmissing.
    assert (Hpair : nonempty (Config.Key c) && nonempty (Config.Secret c) = false).
    { apply andb_false_iff.
      destruct Hmissing as [H|H]; [left|right]; now apply nonempty_false. }
    split; [|split].
    + rewrite New_logs, Hpair. simpl. auto.
    + reflexivity.
    + intros sess Hsess Httl.
      destruct (New_succeeds parse now NewSession l c debug sess Hsess Httl) as [b Hb].
      exists b. split; [exact Hb|].
      apply New_built in Hb. destruct Hb as (_ & _ & Hcred & _).
      now rewrite Hcred, Hpair.
  - intros b id secret token Hb Hcred.
    apply New_built in Hb. destruct Hb as (_ & _ & Hc & _).
    rewrite Hc in Hcred.
    destruct (nonempty (Config.Key c)) eqn:Hk;
      destruct (nonempty (Config.Secret c)) eqn:Hs; simpl in Hcred;
      try discriminate.
    inversion Hcred; subst.
    repeat split; try reflexivity; now apply nonempty_true.
Qed.

Lemma New_credentials_witness :
  In warn_anonymous
     (snd (New sampleParseDuration sampleNow sampleSession sampleLogger
             (sampleConfig "" "" "1h" "https://s3.example") false)) /\
  exists b,
    fst (New sampleParseDuration sampleNow sampleSession sampleLogger
           (sampleConfig "" "" "1h" "https://s3.example") false)
      = Returns (Some b, None) /\
    AwsConfig.Credentials (client_config (client b)) = AnonymousCredentials.
Proof.
  destruct (proj1 (New_credentials sampleParseDuration sampleNow sampleSession
                     sampleLogger (sampleConfig "" "" "1h" "https://s3.example")
                     false) (or_introl eq_refl)) as (Hwarn & _ & Hbuilt).
  split; [exact Hwarn|].
  apply (Hbuilt (SessionOf tt) eq_refl).
  right. exists hour. reflexivity.
Defined.

(** C10.  The client of a backend that [New] returns has SSL enabled
    ([DisableSSL] false) exactly when the endpoint begins with "https://";
    nothing else of the configuration, and neither the debug flag nor the
    clock, enters the setting. *)
Theorem New_ssl_by_endpoint_scheme
    (parse : string -> Duration + error) (now : Time)
    (NewSession : Session + error) (l : Logger) (c : Config.t) (debug : bool)
    (b : Backend) :
  fst (New parse now NewSession l c debug) = Returns (Some b, None) ->
  (AwsConfig.DisableSSL (client_config (client b)) = false
   <-> exists rest, Config.Endpoint c = "https://" ++ rest) /\
  (AwsConfig.DisableSSL (client_config (client b)) = true
   <-> ~ exists rest, Config.Endpoint c = "https://" ++ rest).
Proof.
  intros Hb. apply New_built in Hb. destruct Hb as (_ & Hssl & _).
  rewrite Hssl, <- prefix_begins.
  destruct (String.prefix "https://" (Config.Endpoint c)); simpl;
    split; split; congruence.
Qed.

Lemma New_ssl_by_endpoint_scheme_witness :
  (AwsConfig.DisableSSL (client_config (client (sampleBackend zeroTime))) = false
   <-> exists rest, "https://s3.example" = "https://" ++ rest) /\
  (AwsConfig.DisableSSL (client_config (client (sampleBackend zeroTime))) = true
   <-> ~ exists rest, "https://s3.example" = "https://" ++ rest).
Proof.
  apply (New_ssl_by_endpoint_scheme sampleParseDuration sampleNow sampleSession
           sampleLogger (sampleConfig "" "" "" "https://s3.example") false
           (sampleBackend zeroTime)).
  reflexivity.
Defined.

Example New_ssl_off_without_scheme :
  forall b,
    fst (New sampleParseDuration sampleNow sampleSession sampleLogger
           (sampleConfig "" "" "" "s3.example:9000") false) = Returns (Some b, None) ->
    AwsConfig.DisableSSL (client_config (client b)) = true.
Proof. intros b H. inversion H. reflexivity. Qed.

(** ** [Put] *)

Section PutFacts.
Variable upload_failure : Context -> UploadInput.t -> Service -> option error.
Variable lifecycle_failure :
  PutBucketLifecycleConfigurationInput.t -> Service -> option error.

Lemma upload_input_target (b : Backend) (p : string) (r : Body) :
  UploadInput.Bucket (upload_input b p r) = bucket b /\
  UploadInput.Key (upload_input b p r) = p /\
  UploadInput.Body (upload_input b p r) = r.
Proof. unfold upload_input. destruct (nonempty (encryption b)); auto. Qed.

Lemma UploadWithContext_ok ctx input s s1 :
  UploadWithContext upload_failure ctx input s = (None, s1) ->
  s1 = store_object (UploadInput.Bucket input) (UploadInput.Key input)
         (UploadInput.Body input) (received (ReqUpload ctx input) s).
Proof.
  unfold UploadWithContext.
  destruct (upload_failure ctx input _); intros H; inversion H; reflexivity.
Qed.

Lemma UploadWithContext_failed ctx input s s1 err :
  UploadWithContext upload_failure ctx input s = (Some err, s1) ->
  s1 = received (ReqUpload ctx input) s.
Proof.
  unfold UploadWithContext.
  destruct (upload_failure ctx input _); intros H; inversion H; reflexivity.
Qed.

Lemma PutBucketLifecycleConfiguration_requests input s :
  requests (snd (PutBucketLifecycleConfiguration lifecycle_failure input s))
  = (requests s ++ [ReqPutBucketLifecycleConfiguration input])%list.
Proof.
  unfold PutBucketLifecycleConfiguration.
  destruct (lifecycle_failure input _); reflexivity.
Qed.

Lemma PutBucketLifecycleConfiguration_failed input s s2 err :
  PutBucketLifecycleConfiguration lifecycle_failure input s = (Some err, s2) ->
  s2 = received (ReqPutBucketLifecycleConfiguration input) s.
Proof.
  unfold PutBucketLifecycleConfiguration.
  destruct (lifecycle_failure input _); intros H; inversion H; reflexivity.
Qed.

(** What one [Put] sends: the upload, then, if the upload succeeded, the
    lifecycle update; nothing else. *)
Lemma Put_requests (b : Backend) ctx p r s :
  requests (snd (Put upload_failure lifecycle_failure b ctx p r s))
  = (requests s
       ++ ReqUpload ctx (upload_input b p r)
       :: match fst (UploadWithContext upload_failure ctx (upload_input b p r) s) with
          | Some _ => []
          | None => [ReqPutBucketLifecycleConfiguration (lifecycle_input b p)]
          end)%list.
Proof.
  unfold Put.
  destruct (UploadWithContext upload_failure ctx (upload_input b p r) s)
    as [[err|] s1] eqn:Hup; simpl.
  - apply UploadWithContext_failed in Hup. subst. reflexivity.
  - apply UploadWithContext_ok in Hup.
    pose proof (PutBucketLifecycleConfiguration_requests (lifecycle_input b p) s1) as Hq.
    destruct (PutBucketLifecycleConfiguration lifecycle_failure (lifecycle_input b p) s1)
      as [[err|] s2]; simpl in *; rewrite Hq; subst; simpl;
      now rewrite <- app_assoc.
Qed.

(** The lifecycle updates among the requests of a run of [Put] calls all
    carry the [expiresAt] of the backend. *)
Lemma Puts_requests (b : Backend) calls s :
  exists sent,
    requests (snd (Puts upload_failure lifecycle_failure b calls s))
      = (requests s ++ sent)%list /\
    forall input,
      In (ReqPutBucketLifecycleConfiguration input) sent ->
      exists p, input = lifecycle_input b p.
Proof.
  revert s. induction calls as [|[[ctx p] r] rest IH]; intros s; simpl.
  - exists []. split; [now rewrite app_nil_r | intros ? []].
  - pose proof (Put_requests b ctx p r s) as Hone.
    destruct (Put upload_failure lifecycle_failure b ctx p r s) as [res s1].
    destruct (IH s1) as (sent & Hsent & Hall).
    destruct (Puts upload_failure lifecycle_failure b rest s1) as [ress s2].
    simpl in *. rewrite Hsent, Hone, <- app_assoc.
    eexists. split; [reflexivity|].
    intros input Hin. simpl in Hin.
    destruct Hin as [Hin | Hin]; [discriminate|].
    apply in_app_or in Hin. destruct Hin as [Hin | Hin]; [|now apply Hall].
    destruct (fst (UploadWithContext upload_failure ctx (upload_input b p r) s));
      simpl in Hin; [contradiction|].
    destruct Hin as [Hin | []]. inversion Hin. now exists p.
Qed.
End PutFacts.

(** C1.  [Put] through a backend built without a TTL ([expiresAt] zero),
    with an upload that succeeds, where the specification has the lifecycle
    update skipped.  [Put] still sends the bucket lifecycle update, with the zero instant as expiration
    date; when the store refuses that update [Put] returns the refusal as
    its error, although the upload succeeded, and when the store accepts it
    the bucket has a rule dated at the zero instant. *)
Theorem Put_without_ttl_updates_lifecycle :
  let b := sampleBackend zeroTime in
  let refusal := AwsErr "InvalidArgument" "Date must be in the future" in
  let refused :=
    Put never_fails (lifecycle_always_fails refusal) b CtxLive "artifact/1.tar" []
      emptyService in
  let accepted :=
    Put never_fails lifecycle_never_fails b CtxLive "artifact/1.tar" []
      emptyService in
  fst (New sampleParseDuration sampleNow sampleSession sampleLogger
         (sampleConfig "" "" "" "https://s3.example") false)
    = Returns (Some b, None) /\
  expiresAt b = zeroTime /\
  fst refused = Some (WrapErr "put the object, " refusal) /\
  requests (snd refused)
    = [ReqUpload CtxLive (upload_input b "artifact/1.tar" []);
       ReqPutBucketLifecycleConfiguration
         (PutBucketLifecycleConfigurationInput.mk "cache"
            {| Rules := [ {| Filter_Prefix := "artifact/1.tar";
                             Expiration_Date := zeroTime |} ] |})] /\
  fst accepted = None /\
  lifecycles (snd accepted) !! "cache"
    = Some {| Rules := [ {| Filter_Prefix := "artifact/1.tar";
                            Expiration_Date := zeroTime |} ] |}.
Proof.
  cbv zeta. split; [reflexivity|]. split; [reflexivity|].
  split; [reflexivity|]. split; [reflexivity|]. split; [reflexivity|].
  unfold Put, UploadWithContext, PutBucketLifecycleConfiguration,
    never_fails, lifecycle_never_fails, store_lifecycle; simpl.
  apply lookup_insert_eq.
Qed.

(** C4.  A backend built from a TTL that parses to [d] has
    [expiresAt = now + d], [now] being the instant read during construction.
    Every [Put] through that backend whose upload succeeds sends a lifecycle
    update whose single rule expires at that instant, and in any run of
    [Put] calls every lifecycle update sent carries that same date: the
    date does not move with the time of the call. *)
Theorem expiresAt_fixed_at_construction
    (parse : string -> Duration + error) (now : Time)
    (NewSession : Session + error) (l : Logger) (c : Config.t) (debug : bool)
    (upload_failure : Context -> UploadInput.t -> Service -> option error)
    (lifecycle_failure :
       PutBucketLifecycleConfigurationInput.t -> Service -> option error)
    (d : Duration) (b : Backend) :
  Config.TTL c <> "" ->
  parse (Config.TTL c) = inl d ->
  fst (New parse now NewSession l c debug) = Returns (Some b, None) ->
  expiresAt b = Add now d /\
  (forall ctx p r s,
     fst (UploadWithContext upload_failure ctx (upload_input b p r) s) = None ->
     In (ReqPutBucketLifecycleConfiguration
           (PutBucketLifecycleConfigurationInput.mk (bucket b)
              {| Rules := [ {| Filter_Prefix := p;
                               Expiration_Date := Add now d |} ] |}))
        (requests (snd (Put upload_failure lifecycle_failure b ctx p r s)))) /\
  (forall calls s,
     exists sent,
       requests (snd (Puts upload_failure lifecycle_failure b calls s))
         = (requests s ++ sent)%list /\
       forall input,
         In (ReqPutBucketLifecycleConfiguration input) sent ->
         exists p,
           Rules (PutBucketLifecycleConfigurationInput.LifecycleConfiguration input)
             = [ {| Filter_Prefix := p; Expiration_Date := Add now d |} ]).
Proof.
  intros Hne Hparse Hb.
  assert (Hexp : expiresAt b = Add now d).
  { apply New_built in Hb. destruct Hb as (_ & _ & _ & Hexp).
    apply nonempty_true in Hne. now rewrite Hexp, Hne, Hparse. }
  split; [exact Hexp|]. split.
  - intros ctx p r s Hup.
    rewrite Put_requests, Hup. apply in_or_app. right. right. left.
    unfold lifecycle_input. now rewrite Hexp.
  - intros calls s.
    destruct (Puts_requests upload_failure lifecycle_failure b calls s)
      as (sent & Hsent & Hall).
    exists sent. split; [exact Hsent|].
    intros input Hin. destruct (Hall input Hin) as [p ->].
    exists p. unfold lifecycle_input. simpl. now rewrite Hexp.
Qed.

Lemma expiresAt_fixed_at_construction_witness :
  expiresAt (sampleBackend (Add sampleNow (24 * hour)%Z)) = Add sampleNow (24 * hour)%Z /\
  exists sent,
    requests (snd (Puts never_fails lifecycle_never_fails
                     (sampleBackend (Add sampleNow (24 * hour)%Z))
                     [(CtxLive, "a", []); (CtxLive, "b", [])] emptyService))
      = (requests emptyService ++ sent)%list /\
    forall input,
      In (ReqPutBucketLifecycleConfiguration input) sent ->
      exists p,
        Rules (PutBucketLifecycleConfigurationInput.LifecycleConfiguration input)
          = [ {| Filter_Prefix := p;
                 Expiration_Date := Add sampleNow (24 * hour)%Z |} ].
Proof.
  destruct (expiresAt_fixed_at_construction sampleParseDuration sampleNow
              sampleSession sampleLogger
              (sampleConfig "" "" "24h" "https://s3.example") false
              never_fails lifecycle_never_fails (24 * hour)%Z
              (sampleBackend (Add sampleNow (24 * hour)%Z)))
    as (Hexp & _ & Hruns).
  - discriminate.
  - reflexivity.
  - reflexivity.
  - split; [exact Hexp|]. apply Hruns.
Defined.

(** C7.  When the upload succeeds and the lifecycle update that follows
    fails with [err], [Put] returns an error that wraps [err]; the requests
    it has sent are the upload and the lifecycle update and no other (no
    delete), the object is in the store under its key with the uploaded
    body, and the lifecycle configurations of the store are what they were
    before the call. *)
Theorem Put_lifecycle_failure_keeps_object
    (upload_failure : Context -> UploadInput.t -> Service -> option error)
    (lifecycle_failure :
       PutBucketLifecycleConfigurationInput.t -> Service -> option error)
    (b : Backend) (ctx : Context) (p : string) (r : Body)
    (s s1 s2 : Service) (err : error) :
  UploadWithContext upload_failure ctx (upload_input b p r) s = (None, s1) ->
  PutBucketLifecycleConfiguration lifecycle_failure (lifecycle_input b p) s1
    = (Some err, s2) ->
  Put upload_failure lifecycle_failure b ctx p r s
    = (Some (WrapErr "put the object, " err), s2) /\
  Unwrap (WrapErr "put the object, " err) = Some err /\
  requests s2
    = (requests s
         ++ [ReqUpload ctx (upload_input b p r);
             ReqPutBucketLifecycleConfiguration (lifecycle_input b p)])%list /\
  objects s2 !! (bucket b, p) = Some r /\
  lifecycles s2 = lifecycles s.
Proof.
  intros Hup Hlc.
  assert (HPut : Put upload_failure lifecycle_failure b ctx p r s
                 = (Some (WrapErr "put the object, " err), s2)).
  { unfold Put. now rewrite Hup, Hlc. }
  split; [exact HPut|]. split; [reflexivity|].
  apply UploadWithContext_ok in Hup.
  apply PutBucketLifecycleConfiguration_failed in Hlc.
  destruct (upload_input_target b p r) as (Hbkt & Hkey & Hbody).
  rewrite Hbkt, Hkey, Hbody in Hup. subst s2 s1. simpl.
  repeat split.
  - now rewrite <- app_assoc.
  - apply lookup_insert_eq.
Qed.

Lemma Put_lifecycle_failure_keeps_object_witness :
  let b := sampleBackend (Add sampleNow hour) in
  let err := AwsErr "AccessDenied" "Access Denied" in
  let s2 :=
    received (ReqPutBucketLifecycleConfiguration (lifecycle_input b "artifact/1.tar"))
      (store_object "cache" "artifact/1.tar" []
         (received (ReqUpload CtxLive (upload_input b "artifact/1.tar" []))
            emptyService)) in
  Put never_fails (lifecycle_always_fails err) b CtxLive "artifact/1.tar" []
    emptyService
    = (Some (WrapErr "put the object, " err), s2) /\
  objects s2 !! ("cache", "artifact/1.tar") = Some [].
Proof.
  cbv zeta.
  destruct (Put_lifecycle_failure_keeps_object never_fails
              (lifecycle_always_fails (AwsErr "AccessDenied" "Access Denied"))
              (sampleBackend (Add sampleNow hour)) CtxLive
              "artifact/1.tar" [] emptyService
              (store_object "cache" "artifact/1.tar" []
                 (received
                    (ReqUpload CtxLive
                       (upload_input (sampleBackend (Add sampleNow hour))
                          "artifact/1.tar" []))
                    emptyService))
              (received
                 (ReqPutBucketLifecycleConfiguration
                    (lifecycle_input (sampleBackend (Add sampleNow hour))
                       "artifact/1.tar"))
                 (store_object "cache" "artifact/1.tar" []
                    (received
                       (ReqUpload CtxLive
                          (upload_input (sampleBackend (Add sampleNow hour))
                             "artifact/1.tar" []))
                       emptyService)))
              (AwsErr "AccessDenied" "Access Denied"))
    as (HPut & _ & _ & Hobj & _).
  - reflexivity.
  - reflexivity.
  - split; [exact HPut | exact Hobj].
Defined.

(** ** [Exists] *)

Section ExistsFacts.
Variable head_answer :
  Context -> HeadObjectInput.t -> Service -> HeadObjectOutput + error.
Variables (b : Backend) (ctx : Context) (p : string) (s : Service).

Lemma Exists_of_probe :
  fst (Exists head_answer b ctx p s)
  = match probe head_answer b ctx p s with
    | inr err =>
        not_found ← is_not_found err;
        if not_found : bool
        then mret (false, None)
        else mret (false, Some (WrapErr "head the object, " err))
    | inl out => etag ← deref (ETag out); mret (nonempty etag, None)
    end.
Proof.
  unfold Exists, probe, HeadObjectWithContext. simpl.
  destruct (head_answer ctx _ _); reflexivity.
Qed.

(** A failure that carries an AWS error code is classified by that code. *)
Lemma Exists_aws_error (code message : string) :
  probe head_answer b ctx p s = inr (AwsErr code message) ->
  fst (Exists head_answer b ctx p s)
  = Returns
      (false,
       if (code =? ErrCodeNoSuchKey) || (code =? "NotFound")
       then None
       else Some (WrapErr "head the object, " (AwsErr code message))).
Proof.
  intros Hprobe. rewrite Exists_of_probe, Hprobe.
  unfold is_not_found. simpl.
  destruct (code =? ErrCodeNoSuchKey); simpl; [reflexivity|].
  destruct (code =? "NotFound"); reflexivity.
Qed.

(** A failure that is not an [awserr.Error] reaches [awsErr.Code()] on the
    nil interface value. *)
Lemma Exists_other_error (err : error) :
  probe head_answer b ctx p s = inr err ->
  as_awserr err = None ->
  fst (Exists head_answer b ctx p s) = Panics nil_deref.
Proof.
  intros Hprobe Hno. rewrite Exists_of_probe, Hprobe.
  unfold is_not_found. rewrite Hno. reflexivity.
Qed.
End ExistsFacts.

(** C2.  [Exists] when the probe fails with an error that is not an
    AWS-coded one (here a refused connection), where the specification has
    it return [(false, e)] with [e] wrapping the cause: the classification
    panics. *)
Theorem Exists_panics_on_uncoded_failure :
  fst (Exists (head_answers (inr (OtherErr "dial tcp 10.0.0.7:9000: connect: connection refused")))
         (sampleBackend zeroTime) CtxLive "artifact/1.tar" emptyService)
  = Panics nil_deref.
Proof. reflexivity. Qed.

(** C3.  [Exists] is not total.  Whatever the backend, the key and the
    store, it panics when the probe fails with an error that is not an
    [awserr.Error] (a plain error, or one wrapped by [fmt.Errorf]), and when
    the probe succeeds with a nil [ETag]. *)
Theorem Exists_not_total
    (b : Backend) (ctx : Context) (p : string) (s : Service)
    (message context : string) (cause : error) :
  fst (Exists (head_answers (inr (OtherErr message))) b ctx p s) = Panics nil_deref /\
  fst (Exists (head_answers (inr (WrapErr context cause))) b ctx p s)
    = Panics nil_deref /\
  fst (Exists (head_answers (inl {| ETag := None |})) b ctx p s) = Panics nil_deref.
Proof. repeat split. Qed.



(** ** [Get] *)

#[local] Set Warnings "-clear-no-such-hyp".

Section GetFacts.
Variable fetched : GetObjectOutput + error.
Variable copied : option error.
Variable cause : CtxCause.

Lemma run_app (sched1 sched2 : list Move) (s : GetState) :
  run fetched copied cause (sched1 ++ sched2)%list s
  = match run fetched copied cause sched1 s with
    | Some s' => run fetched copied cause sched2 s'
    | None => None
    end.
Proof.
  revert s. induction sched1 as [|m sched1 IH]; intros s; simpl.
  - reflexivity.
  - destruct (step fetched copied cause m s); [apply IH | reflexivity].
Qed.

Lemma get_inv_start : get_inv fetched copied cause get_start.
Proof.
  unfold get_inv. simpl.
  split; [discriminate|]. split; [discriminate | reflexivity].
Qed.

Lemma step_inv (m : Move) (s s' : GetState) :
  get_inv fetched copied cause s ->
  step fetched copied cause m s = Some s' ->
  get_inv fetched copied cause s'.
Proof.
  destruct s as [g closed bclosed cs ret].
  unfold get_inv, step, past_sends, transfer_error, cancelled,
    transfer_completed, fetch_failed, copy_failed; simpl.
  intros (Hret & Hctx & Hpc) Hstep.
  destruct m;
    [ destruct g as [|err body_open| | | |];
      [ destruct fetched as [out|err] eqn:Hf
      | destruct ret; [|destruct body_open]
      | destruct copied as [err|] eqn:Hc
      | | | ]
    | destruct cs
    | destruct ret; destruct closed; [| | destruct g |]
    | destruct ret; destruct cs; [| | | destruct g ] ];
    try discriminate; inversion Hstep; subst; clear Hstep; simpl.
  all: naive_solver.
Qed.

Lemma run_inv (sched : list Move) (s s' : GetState) :
  get_inv fetched copied cause s ->
  run fetched copied cause sched s = Some s' ->
  get_inv fetched copied cause s'.
Proof.
  revert s. induction sched as [|m sched IH]; intros s Hinv; simpl.
  - intros H. inversion H. now subst.
  - destruct (step fetched copied cause m s) as [s1|] eqn:Hstep; [|discriminate].
    apply IH. eapply step_inv; eauto.
Qed.

Lemma reachable_inv (s : GetState) :
  reachable fetched copied cause s -> get_inv fetched copied cause s.
Proof. intros [sched Hrun]. eapply run_inv; [apply get_inv_start | exact Hrun]. Qed.

(** Once [Get] has returned, no move changes what it returned. *)
Lemma step_returned (m : Move) (s s' : GetState) (r : option error) :
  returned s = Some r ->
  step fetched copied cause m s = Some s' ->
  returned s' = Some r.
Proof.
  destruct s as [g closed bclosed cs ret]. unfold step; simpl. intros ->.
  destruct m;
    [ destruct g as [|err body_open| | | |];
      [ destruct fetched | | destruct copied | | | ]
    | destruct cs | | ];
    try discriminate; intros H; inversion H; reflexivity.
Qed.

(** While the caller waits, the goroutine can always be run until the
    caller's [select] has a case that fires: [Get] does not hang. *)
Lemma get_returns (s : GetState) :
  get_inv fetched copied cause s ->
  exists sched s',
    run fetched copied cause sched s = Some s' /\ returned s' <> None.
Proof.
  destruct s as [g closed bclosed cs [r|]].
  { intros _. exists [], (Build_GetState g closed bclosed cs (Some r)).
    split; [reflexivity | discriminate]. }
  unfold get_inv; simpl. intros (_ & _ & Hpc).
  destruct g as [|err body_open| | | |].
  - destruct fetched as [out|err] eqn:Hf.
    + destruct copied as [err|] eqn:Hc.
      * exists [RunGoroutine; RunGoroutine; RunGoroutine]. simpl. eexists. split; [reflexivity | discriminate].
      * exists [RunGoroutine; RunGoroutine; RunGoroutine; RunGoroutine; ReceiveClosed].
        simpl. eexists. split; [reflexivity | discriminate].
    + exists [RunGoroutine; RunGoroutine]. simpl.
      eexists. split; [reflexivity | discriminate].
  - exists [RunGoroutine]. simpl. eexists. split; [reflexivity | discriminate].
  - destruct copied as [err|] eqn:Hc.
    + exists [RunGoroutine; RunGoroutine]. simpl.
      eexists. split; [reflexivity | discriminate].
    + exists [RunGoroutine; RunGoroutine; RunGoroutine; ReceiveClosed]. simpl.
      simpl. eexists. split; [reflexivity | discriminate].
  - exists [RunGoroutine; RunGoroutine; ReceiveClosed]. simpl.
    eexists. split; [reflexivity | discriminate].
  - exists [RunGoroutine; ReceiveClosed]. simpl.
    eexists. split; [reflexivity | discriminate].
  - destruct Hpc as [-> _]. exists [ReceiveClosed]. simpl.
    eexists. split; [reflexivity | discriminate].
Qed.

(** The four results exclude one another. *)
Lemma outcomes_exclusive (s : GetState) (r : option error) :
  get_inv fetched copied cause s ->
  returned s = Some r ->
  exactly_one (transfer_completed fetched copied r) (fetch_failed fetched r)
    (copy_failed fetched copied r) (cancelled cause s r).
Proof.
  intros (Hret & _ & _) Hr. split; [now apply Hret|].
  unfold transfer_completed, fetch_failed, copy_failed, cancelled.
  destruct cause; simpl; repeat split; naive_solver.
Qed.
(** What a send statement of the goroutine carries is the result of the
    transfer. *)
Lemma transfer_error_result (err : error) :
  transfer_error fetched copied err ->
  Some err = transfer_result fetched copied.
Proof.
  unfold transfer_error, fetch_failed, copy_failed, transfer_result.
  intros [(c & Hf & Herr) | (out & c & Hf & Hc & Herr)].
  - rewrite Hf. exact Herr.
  - rewrite Hf, Hc. exact Herr.
Qed.

Lemma past_sends_result (s : GetState) :
  returned s = None ->
  past_sends fetched copied s ->
  transfer_result fetched copied = None.
Proof.
  unfold past_sends, transfer_result.
  intros Hr [Hne | [[out Hf] Hc]]; [contradiction|].
  now rewrite Hf, Hc.
Qed.

(** While the caller waits, the goroutine and the channel alone, with no
    move of the context, bring [Get] to return the result of the transfer. *)
Lemma get_returns_transfer (s : GetState) :
  get_inv fetched copied cause s ->
  returned s = None ->
  exists more s',
    Forall (fun m => m = RunGoroutine \/ m = ReceiveClosed) more /\
    run fetched copied cause more s = Some s' /\
    returned s' = Some (transfer_result fetched copied).
Proof.
  destruct s as [g closed bclosed cs ret]. simpl. intros Hinv ->.
  destruct Hinv as (_ & _ & Hpc). simpl in Hpc.
  destruct g as [|err body_open| | | |].
  - unfold transfer_result.
    destruct fetched as [out|err] eqn:Hf; [destruct copied as [err|] eqn:Hc|].
    + exists [RunGoroutine; RunGoroutine; RunGoroutine]. simpl.
      eexists. split; [repeat (apply Forall_cons_2; [auto|]); apply Forall_nil_2 | split; reflexivity].
    + exists [RunGoroutine; RunGoroutine; RunGoroutine; RunGoroutine; ReceiveClosed].
      simpl. eexists. split; [repeat (apply Forall_cons_2; [auto|]); apply Forall_nil_2 | split; reflexivity].
    + exists [RunGoroutine; RunGoroutine]. simpl.
      eexists. split; [repeat (apply Forall_cons_2; [auto|]); apply Forall_nil_2 | split; reflexivity].
  - destruct Hpc as [_ Herr]. apply transfer_error_result in Herr.
    exists [RunGoroutine]. simpl.
    eexists. split; [repeat (apply Forall_cons_2; [auto|]); apply Forall_nil_2 | split; [reflexivity|]].
    simpl. now rewrite Herr.
  - destruct Hpc as [_ [out Hf]]. unfold transfer_result. rewrite Hf.
    destruct copied as [err|] eqn:Hc.
    + exists [RunGoroutine; RunGoroutine]. simpl.
      eexists. split; [repeat (apply Forall_cons_2; [auto|]); apply Forall_nil_2 | split; reflexivity].
    + exists [RunGoroutine; RunGoroutine; RunGoroutine; ReceiveClosed]. simpl.
      eexists. split; [repeat (apply Forall_cons_2; [auto|]); apply Forall_nil_2 | split; reflexivity].
  - destruct Hpc as [_ Hpast]. apply past_sends_result in Hpast; [|reflexivity].
    exists [RunGoroutine; RunGoroutine; ReceiveClosed]. simpl.
    eexists. split; [repeat (apply Forall_cons_2; [auto|]); apply Forall_nil_2 | split; [reflexivity|]].
    simpl. now rewrite Hpast.
  - destruct Hpc as [_ Hpast]. apply past_sends_result in Hpast; [|reflexivity].
    exists [RunGoroutine; ReceiveClosed]. simpl.
    eexists. split; [repeat (apply Forall_cons_2; [auto|]); apply Forall_nil_2 | split; [reflexivity|]].
    simpl. now rewrite Hpast.
  - destruct Hpc as [-> Hpast]. apply past_sends_result in Hpast; [|reflexivity].
    exists [ReceiveClosed]. simpl.
    eexists. split; [repeat (apply Forall_cons_2; [auto|]); apply Forall_nil_2 | split; [reflexivity|]].
    simpl. now rewrite Hpast.
Qed.

(** While the caller waits, the end of the context brings [Get] to return
    the context's error. *)
Lemma get_returns_cancelled (s : GetState) :
  get_inv fetched copied cause s ->
  returned s = None ->
  exists more s',
    (more = [ReceiveDone] \/ more = [Cancel; ReceiveDone]) /\
    run fetched copied cause more s = Some s' /\
    returned s' = Some (Some (ctx_error cause)).
Proof.
  destruct s as [g closed bclosed cs ret]. simpl. intros Hinv ->.
  destruct Hinv as (_ & Hctx & _). simpl in Hctx.
  destruct cs as [|err].
  - exists [Cancel; ReceiveDone]. simpl. eexists. split; [auto | split; reflexivity].
  - rewrite (Hctx err eq_refl).
    exists [ReceiveDone]. simpl. eexists. split; [auto | split; reflexivity].
Qed.

(** A state in which nobody can move is one in which [Get] has returned. *)
Lemma get_no_deadlock (s : GetState) :
  get_inv fetched copied cause s ->
  (forall m, step fetched copied cause m s = None) ->
  returned s <> None.
Proof.
  intros Hinv Hstuck Hr.
  destruct (get_returns_transfer s Hinv Hr) as (more & s' & _ & Hrun & Hret).
  destruct more as [|m more]; simpl in Hrun.
  - inversion Hrun; subst. congruence.
  - now rewrite Hstuck in Hrun.
Qed.
End GetFacts.

(** C6.  In every state a call of [Get] can reach: if [Get] has returned,
    what it returned is exactly one of nil with the transfer completed, the
    wrapped error of a failed fetch, the wrapped error of a failed copy, or
    the error of the context, the context being done; no later move of the
    goroutine or of the context changes the value returned.  If [Get] has
    not returned yet, then the goroutine and the channel alone, without any
    move of the context, bring it to return the result of the transfer (nil,
    or the wrapped error of the fetch or of the copy), and the end of the
    context brings it to return the context's error: which of the two it
    returns is decided by which comes first.  [Get] never hangs: a state in
    which no move is enabled is one in which it has returned. *)
Theorem Get_outcomes
    (get_answer : GetObjectInput.t -> GetObjectOutput + error)
    (copied : option error) (cause : CtxCause)
    (b : Backend) (p : string) (sched : list Move) (s : GetState) :
  Get get_answer copied cause b p sched = Some s ->
  (forall r,
     returned s = Some r ->
     exactly_one
       (transfer_completed (get_answer (get_input b p)) copied r)
       (fetch_failed (get_answer (get_input b p)) r)
       (copy_failed (get_answer (get_input b p)) copied r)
       (cancelled cause s r)) /\
  (forall r m s',
     returned s = Some r ->
     step (get_answer (get_input b p)) copied cause m s = Some s' ->
     returned s' = Some r) /\
  (exists more s',
     Get get_answer copied cause b p (sched ++ more)%list = Some s' /\
     returned s' <> None) /\
  (returned s = None ->
   exists more s',
     Forall (fun m => m = RunGoroutine \/ m = ReceiveClosed) more /\
     Get get_answer copied cause b p (sched ++ more)%list = Some s' /\
     returned s' = Some (transfer_result (get_answer (get_input b p)) copied)) /\
  (returned s = None ->
   exists more s',
     (more = [ReceiveDone] \/ more = [Cancel; ReceiveDone]) /\
     Get get_answer copied cause b p (sched ++ more)%list = Some s' /\
     returned s' = Some (Some (ctx_error cause))) /\
  ((forall m, step (get_answer (get_input b p)) copied cause m s = None) ->
   returned s <> None).
Proof.
  unfold Get. generalize (get_answer (get_input b p)). intros fetched Hrun.
  assert (Hinv : get_inv fetched copied cause s).
  { apply reachable_inv. now exists sched. }
  split; [|split; [|split; [|split; [|split]]]].
  - intros r Hr. now apply outcomes_exclusive.
  - intros r m s' Hr Hstep. eapply step_returned; eauto.
  - destruct (get_returns fetched copied cause s Hinv) as (more & s' & Hmore & Hret).
    exists more, s'. split; [|exact Hret].
    rewrite run_app. now rewrite Hrun.
  - intros Hr.
    destruct (get_returns_transfer fetched copied cause s Hinv Hr)
      as (more & s' & Hfree & Hmore & Hret).
    exists more, s'. split; [exact Hfree|]. split; [|exact Hret].
    rewrite run_app. now rewrite Hrun.
  - intros Hr.
    destruct (get_returns_cancelled fetched copied cause s Hinv Hr)
      as (more & s' & Hshape & Hmore & Hret).
    exists more, s'. split; [exact Hshape|]. split; [|exact Hret].
    rewrite run_app. now rewrite Hrun.
  - now apply get_no_deadlock.
Qed.

Lemma Get_outcomes_witness :
  let fetched : GetObjectOutput + error :=
    inr (AwsErr "RequestCanceled" "request context canceled") in
  let s :=
    {| goroutine := AtSend (WrapErr "get the object, "
                              (AwsErr "RequestCanceled" "request context canceled"))
                      false;
       errCh_closed := false;
       body_closed := false;
       ctx_state := CtxDone (ctx_error Canceled);
       returned := Some (Some (ctx_error Canceled)) |} in
  exactly_one
    (transfer_completed fetched None (Some (ctx_error Canceled)))
    (fetch_failed fetched (Some (ctx_error Canceled)))
    (copy_failed fetched None (Some (ctx_error Canceled)))
    (cancelled Canceled s (Some (ctx_error Canceled))) /\
  exists more s',
    Forall (fun m => m = RunGoroutine \/ m = ReceiveClosed) more /\
    Get (fun _ => inl {| Output_Body := [] |}) (Some (OtherErr "short write"))
      Canceled (sampleBackend zeroTime) "artifact/1.tar"
      ([RunGoroutine; Cancel] ++ more)%list = Some s' /\
    returned s' = Some (Some (WrapErr "copy the object, " (OtherErr "short write"))).
Proof.
  cbv zeta. split.
  - apply (proj1 (Get_outcomes
                    (fun _ => inr (AwsErr "RequestCanceled" "request context canceled"))
                    None Canceled (sampleBackend zeroTime) "artifact/1.tar"
                    [Cancel; RunGoroutine; ReceiveDone]
                    {| goroutine :=
                         AtSend (WrapErr "get the object, "
                                   (AwsErr "RequestCanceled" "request context canceled"))
                           false;
                       errCh_closed := false;
                       body_closed := false;
                       ctx_state := CtxDone (ctx_error Canceled);
                       returned := Some (Some (ctx_error Canceled)) |}
                    eq_refl)).
    reflexivity.
  - apply (proj1 (proj2 (proj2 (proj2
             (Get_outcomes (fun _ => inl {| Output_Body := [] |})
                (Some (OtherErr "short write")) Canceled (sampleBackend zeroTime)
                "artifact/1.tar" [RunGoroutine; Cancel]
                {| goroutine := AtCopy;
                   errCh_closed := false;
                   body_closed := false;
                   ctx_state := CtxDone (ctx_error Canceled);
                   returned := None |}
                eq_refl))))).
    reflexivity.
Defined.

(** Each of the four results is the result of some run. *)
Example Get_run_completed :
  option_map returned
    (run (inl {| Output_Body := [] |}) None Canceled
       [RunGoroutine; RunGoroutine; RunGoroutine; RunGoroutine; ReceiveClosed]
       get_start)
  = Some (Some None).
Proof. reflexivity. Qed.

Example Get_run_fetch_failed :
  option_map returned
    (run (inr (AwsErr "NoSuchKey" "The specified key does not exist.")) None Canceled
       [RunGoroutine; RunGoroutine] get_start)
  = Some (Some (Some (WrapErr "get the object, "
                        (AwsErr "NoSuchKey" "The specified key does not exist.")))).
Proof. reflexivity. Qed.

Example Get_run_copy_failed :
  option_map returned
    (run (inl {| Output_Body := [] |}) (Some (OtherErr "short write")) Canceled
       [RunGoroutine; RunGoroutine; RunGoroutine] get_start)
  = Some (Some (Some (WrapErr "copy the object, " (OtherErr "short write")))).
Proof. reflexivity. Qed.

Example Get_run_cancelled :
  option_map returned
    (run (inl {| Output_Body := [] |}) None DeadlineExceeded
       [RunGoroutine; Cancel; ReceiveDone] get_start)
  = Some (Some (Some (OtherErr "context deadline exceeded"))).
Proof. reflexivity. Qed.


(** * Further properties of the code *)

(** ** Construction *)

(** X1.  [New] ends in exactly one of three ways.  It returns [(nil, err)]
    exactly when the TTL is non-empty and the parser rejects it with [err],
    also when no session could be created afterwards; it panics exactly when
    the TTL is usable and the session cannot be created; it returns a
    backend exactly when the TTL is usable and the session is created.  A
    returned pair never has both components nil or both set. *)
Theorem New_ends_three_ways
    (parse : string -> Duration + error) (now : Time)
    (NewSession : Session + error) (l : Logger) (c : Config.t) (debug : bool) :
  (forall err,
     fst (New parse now NewSession l c debug) = Returns (None, Some err)
     <-> Config.TTL c <> "" /\ parse (Config.TTL c) = inr err) /\
  ((exists reason, fst (New parse now NewSession l c debug) = Panics reason)
   <-> (Config.TTL c = "" \/ exists d, parse (Config.TTL c) = inl d) /\
       exists err, NewSession = inr err) /\
  ((exists b, fst (New parse now NewSession l c debug) = Returns (Some b, None))
   <-> (Config.TTL c = "" \/ exists d, parse (Config.TTL c) = inl d) /\
       exists sess, NewSession = inl sess) /\
  (forall ob oe,
     fst (New parse now NewSession l c debug) = Returns (ob, oe) ->
     (ob = None <-> oe <> None)).
Proof.
  unfold New.
  destruct (nonempty (Config.TTL c)) eqn:Httl;
    [apply nonempty_true in Httl | apply nonempty_false in Httl];
    destruct (parse (Config.TTL c)) as [d|perr];
    destruct NewSession as [sess|serr];
    destruct (nonempty (Config.Key c) && nonempty (Config.Secret c));
    simpl; repeat split; naive_solver.
Qed.

Lemma New_ends_three_ways_witness :
  (exists reason,
     fst (New sampleParseDuration sampleNow (inr (OtherErr "no session"))
            sampleLogger (sampleConfig "" "" "1h" "https://s3.example") false)
       = Panics reason) /\
  fst (New sampleParseDuration sampleNow (inr (OtherErr "no session"))
         sampleLogger (sampleConfig "" "" "a day" "https://s3.example") false)
    = Returns (None, Some (OtherErr "time: invalid duration a day")).
Proof.
  split.
  - apply (proj2 (proj1 (proj2 (New_ends_three_ways sampleParseDuration sampleNow
                                  (inr (OtherErr "no session")) sampleLogger
                                  (sampleConfig "" "" "1h" "https://s3.example")
                                  false)))).
    split; [right; exists hour; reflexivity | eexists; reflexivity].
  - apply (proj2 (proj1 (New_ends_three_ways sampleParseDuration sampleNow
                           (inr (OtherErr "no session")) sampleLogger
                           (sampleConfig "" "" "a day" "https://s3.example")
                           false)
                    (OtherErr "time: invalid duration a day"))).
    split; [discriminate | reflexivity].
Defined.

(** X2.  Whatever the outcome of [New], the lines it logs are the
    anonymous-credentials warning, if and only if the key or the secret is
    empty, followed by the one debug line that shows the configuration. *)
Theorem New_log_lines
    (parse : string -> Duration + error) (now : Time)
    (NewSession : Session + error) (l : Logger) (c : Config.t) (debug : bool) :
  (In warn_anonymous (snd (New parse now NewSession l c debug))
   <-> Config.Key c = "" \/ Config.Secret c = "") /\
  exists before,
    snd (New parse now NewSession l c debug) = (before ++ [debug_config c])%list /\
    (before = [] \/ before = [warn_anonymous]).
Proof.
  rewrite New_logs.
  assert (Hiff : nonempty (Config.Key c) && nonempty (Config.Secret c) = false
                 <-> Config.Key c = "" \/ Config.Secret c = "").
  { rewrite andb_false_iff, !nonempty_false. reflexivity. }
  destruct (nonempty (Config.Key c) && nonempty (Config.Secret c)); simpl.
  - split.
    + split.
      * intros [Hin | []]. discriminate Hin.
      * intros Hmissing. apply Hiff in Hmissing. discriminate Hmissing.
    + exists []. auto.
  - split.
    + split; [intros _; now apply Hiff | intros _; now left].
    + exists [warn_anonymous]. auto.
Qed.

(** X3.  A backend that [New] returns carries the logger, bucket, ACL and
    encryption of the call unchanged; its client is configured with the
    region, endpoint and path-style flag of the configuration, and with the
    SDK's debug-with-body log level exactly when the debug flag is set. *)
Theorem New_backend_fields
    (parse : string -> Duration + error) (now : Time)
    (NewSession : Session + error) (l : Logger) (c : Config.t) (debug : bool)
    (b : Backend) :
  fst (New parse now NewSession l c debug) = Returns (Some b, None) ->
  logger b = l /\
  bucket b = Config.Bucket c /\
  acl b = Config.ACL c /\
  encryption b = Config.Encryption c /\
  AwsConfig.Region (client_config (client b)) = Config.Region c /\
  AwsConfig.Endpoint (client_config (client b)) = Config.Endpoint c /\
  AwsConfig.S3ForcePathStyle (client_config (client b)) = Config.PathStyle c /\
  AwsConfig.LogLevel (client_config (client b))
    = (if debug then Some LogDebugWithHTTPBody else None) /\
  NewSession = inl (client_session (client b)).
Proof.
  unfold New.
  destruct (nonempty (Config.Key c) && nonempty (Config.Secret c));
    destruct (nonempty (Config.TTL c));
    try destruct (parse (Config.TTL c));
    destruct NewSession; destruct debug; simpl;
    intros H; inversion H; subst; simpl; repeat split.
Qed.

Lemma New_backend_fields_witness :
  bucket (sampleBackend zeroTime) = "cache" /\
  AwsConfig.LogLevel (client_config (client (sampleBackend zeroTime))) = None.
Proof.
  destruct (New_backend_fields sampleParseDuration sampleNow sampleSession
              sampleLogger (sampleConfig "" "" "" "https://s3.example") false
              (sampleBackend zeroTime) eq_refl)
    as (_ & Hb & _ & _ & _ & _ & _ & Hl & _).
  split; [exact Hb | exact Hl].
Defined.

(** ** [Put] *)

Section MorePutFacts.
Variable upload_failure : Context -> UploadInput.t -> Service -> option error.
Variable lifecycle_failure :
  PutBucketLifecycleConfigurationInput.t -> Service -> option error.

Lemma PutBucketLifecycleConfiguration_ok input s s2 :
  PutBucketLifecycleConfiguration lifecycle_failure input s = (None, s2) ->
  s2 = store_lifecycle (PutBucketLifecycleConfigurationInput.Bucket input)
         (PutBucketLifecycleConfigurationInput.LifecycleConfiguration input)
         (received (ReqPutBucketLifecycleConfiguration input) s).
Proof.
  unfold PutBucketLifecycleConfiguration.
  destruct (lifecycle_failure input _); intros H; inversion H; reflexivity.
Qed.

(** What a [Put] can have done to the store: at most the object written
    under its key and the lifecycle configuration of its bucket replaced. *)
Lemma Put_store (b : Backend) ctx p r s :
  (objects (snd (Put upload_failure lifecycle_failure b ctx p r s)) = objects s \/
   objects (snd (Put upload_failure lifecycle_failure b ctx p r s))
     = <[(bucket b, p) := r]> (objects s)) /\
  (lifecycles (snd (Put upload_failure lifecycle_failure b ctx p r s)) = lifecycles s \/
   lifecycles (snd (Put upload_failure lifecycle_failure b ctx p r s))
     = <[bucket b :=
           {| Rules := [ {| Filter_Prefix := p; Expiration_Date := expiresAt b |} ] |}]>
         (lifecycles s)).
Proof.
  unfold Put.
  destruct (upload_input_target b p r) as (Hbkt & Hkey & Hbody).
  destruct (UploadWithContext upload_failure ctx (upload_input b p r) s)
    as [[err|] s1] eqn:Hup; simpl.
  - apply UploadWithContext_failed in Hup. subst. simpl. auto.
  - apply UploadWithContext_ok in Hup. rewrite Hbkt, Hkey, Hbody in Hup.
    destruct (PutBucketLifecycleConfiguration lifecycle_failure (lifecycle_input b p) s1)
      as [[err|] s2] eqn:Hlc; simpl.
    + apply PutBucketLifecycleConfiguration_failed in Hlc. subst. simpl. auto.
    + apply PutBucketLifecycleConfiguration_ok in Hlc. subst. simpl. auto.
Qed.

Lemma Puts_app (b : Backend) calls1 calls2 s :
  Puts upload_failure lifecycle_failure b (calls1 ++ calls2)%list s
  = let (res1, s1) := Puts upload_failure lifecycle_failure b calls1 s in
    let (res2, s2) := Puts upload_failure lifecycle_failure b calls2 s1 in
    ((res1 ++ res2)%list, s2).
Proof.
  revert s. induction calls1 as [|[[ctx p] r] rest IH]; intros s; simpl.
  - destruct (Puts upload_failure lifecycle_failure b calls2 s). reflexivity.
  - destruct (Put upload_failure lifecycle_failure b ctx p r s) as [res s1].
    rewrite IH.
    destruct (Puts upload_failure lifecycle_failure b rest s1) as [res1 s2].
    destruct (Puts upload_failure lifecycle_failure b calls2 s2) as [res2 s3].
    reflexivity.
Qed.

(** No [Put] removes an object. *)
Lemma Puts_keeps (b : Backend) calls s (k : string * string) :
  is_Some (objects s !! k) ->
  is_Some (objects (snd (Puts upload_failure lifecycle_failure b calls s)) !! k).
Proof.
  revert s. induction calls as [|[[ctx p] r] rest IH]; intros s Hk; simpl.
  - exact Hk.
  - pose proof (Put_store b ctx p r s) as [Hobj _].
    destruct (Put upload_failure lifecycle_failure b ctx p r s) as [res s1].
    specialize (IH s1).
    destruct (Puts upload_failure lifecycle_failure b rest s1) as [ress s2].
    simpl in *. apply IH.
    destruct Hobj as [-> | ->]; [exact Hk|].
    destruct (decide ((bucket b, p) = k)) as [<-|Hne].
    + rewrite lookup_insert_eq. eauto.
    + now rewrite lookup_insert_ne.
Qed.
End MorePutFacts.

(** X4.  When the upload fails with [err], [Put] returns an error that wraps
    [err] and stops: the upload is the only request it has sent, no
    lifecycle update follows, and the lifecycle configurations of the store
    are what they were. *)
Theorem Put_upload_failure
    (upload_failure : Context -> UploadInput.t -> Service -> option error)
    (lifecycle_failure :
       PutBucketLifecycleConfigurationInput.t -> Service -> option error)
    (b : Backend) (ctx : Context) (p : string) (r : Body)
    (s s1 : Service) (err : error) :
  UploadWithContext upload_failure ctx (upload_input b p r) s = (Some err, s1) ->
  Put upload_failure lifecycle_failure b ctx p r s
    = (Some (WrapErr "put the object, " err), s1) /\
  requests s1 = (requests s ++ [ReqUpload ctx (upload_input b p r)])%list /\
  lifecycles s1 = lifecycles s.
Proof.
  intros Hup.
  assert (HPut : Put upload_failure lifecycle_failure b ctx p r s
                 = (Some (WrapErr "put the object, " err), s1)).
  { unfold Put. now rewrite Hup. }
  apply UploadWithContext_failed in Hup. subst s1.
  repeat split; assumption.
Qed.

Lemma Put_upload_failure_witness :
  fst (Put (fun _ _ _ => Some (AwsErr "AccessDenied" "Access Denied"))
         lifecycle_never_fails (sampleBackend zeroTime) CtxLive "artifact/1.tar" []
         emptyService)
  = Some (WrapErr "put the object, " (AwsErr "AccessDenied" "Access Denied")).
Proof.
  pose proof (Put_upload_failure
                (fun _ _ _ => Some (AwsErr "AccessDenied" "Access Denied"))
                lifecycle_never_fails (sampleBackend zeroTime) CtxLive
                "artifact/1.tar" [] emptyService
                (received (ReqUpload CtxLive
                             (upload_input (sampleBackend zeroTime) "artifact/1.tar" []))
                   emptyService)
                (AwsErr "AccessDenied" "Access Denied") eq_refl) as (HPut & _).
  now rewrite HPut.
Defined.

(** X5.  When the upload and the lifecycle update both succeed, [Put]
    returns nil; it has sent these two requests and no other; the store
    holds the body under the key, and the lifecycle configuration of the
    bucket is the single rule for the key with the backend's [expiresAt],
    whatever the configuration was before. *)
Theorem Put_success
    (upload_failure : Context -> UploadInput.t -> Service -> option error)
    (lifecycle_failure :
       PutBucketLifecycleConfigurationInput.t -> Service -> option error)
    (b : Backend) (ctx : Context) (p : string) (r : Body) (s s1 s2 : Service) :
  UploadWithContext upload_failure ctx (upload_input b p r) s = (None, s1) ->
  PutBucketLifecycleConfiguration lifecycle_failure (lifecycle_input b p) s1
    = (None, s2) ->
  Put upload_failure lifecycle_failure b ctx p r s = (None, s2) /\
  requests s2
    = (requests s
         ++ [ReqUpload ctx (upload_input b p r);
             ReqPutBucketLifecycleConfiguration (lifecycle_input b p)])%list /\
  objects s2 !! (bucket b, p) = Some r /\
  lifecycles s2 !! bucket b
    = Some {| Rules := [ {| Filter_Prefix := p; Expiration_Date := expiresAt b |} ] |}.
Proof.
  intros Hup Hlc.
  assert (HPut : Put upload_failure lifecycle_failure b ctx p r s = (None, s2)).
  { unfold Put. now rewrite Hup, Hlc. }
  split; [exact HPut|].
  apply UploadWithContext_ok in Hup.
  apply PutBucketLifecycleConfiguration_ok in Hlc.
  destruct (upload_input_target b p r) as (Hbkt & Hkey & Hbody).
  rewrite Hbkt, Hkey, Hbody in Hup. subst s2 s1. simpl.
  repeat split.
  - now rewrite <- app_assoc.
  - apply lookup_insert_eq.
  - apply lookup_insert_eq.
Qed.

Lemma Put_success_witness :
  fst (Put never_fails lifecycle_never_fails (sampleBackend (Add sampleNow hour))
         CtxLive "artifact/1.tar" [] emptyService) = None.
Proof.
  pose proof (Put_success never_fails lifecycle_never_fails
                (sampleBackend (Add sampleNow hour)) CtxLive "artifact/1.tar" []
                emptyService _ _ eq_refl eq_refl) as (HPut & _).
  now rewrite HPut.
Defined.

(** X6.  [Put] returns nil exactly when both the upload and the lifecycle
    update succeed.  Every error it returns is the failure of one of the two
    wrapped with the same text, "put the object, ": the error does not tell
    which of the two calls failed. *)
Theorem Put_result_shape
    (upload_failure : Context -> UploadInput.t -> Service -> option error)
    (lifecycle_failure :
       PutBucketLifecycleConfigurationInput.t -> Service -> option error)
    (b : Backend) (ctx : Context) (p : string) (r : Body) (s : Service) :
  (fst (Put upload_failure lifecycle_failure b ctx p r s) = None
   <-> fst (UploadWithContext upload_failure ctx (upload_input b p r) s) = None /\
       fst (PutBucketLifecycleConfiguration lifecycle_failure (lifecycle_input b p)
              (snd (UploadWithContext upload_failure ctx (upload_input b p r) s)))
         = None) /\
  (forall err,
     fst (Put upload_failure lifecycle_failure b ctx p r s) = Some err ->
     exists cause,
       err = WrapErr "put the object, " cause /\
       (fst (UploadWithContext upload_failure ctx (upload_input b p r) s) = Some cause \/
        fst (UploadWithContext upload_failure ctx (upload_input b p r) s) = None /\
        fst (PutBucketLifecycleConfiguration lifecycle_failure (lifecycle_input b p)
               (snd (UploadWithContext upload_failure ctx (upload_input b p r) s)))
          = Some cause)).
Proof.
  unfold Put.
  destruct (UploadWithContext upload_failure ctx (upload_input b p r) s)
    as [[uerr|] s1]; simpl.
  - split; [split; [discriminate | intros [H _]; discriminate H]|].
    intros err H. inversion H. eauto.
  - destruct (PutBucketLifecycleConfiguration lifecycle_failure (lifecycle_input b p) s1)
      as [[lerr|] s2]; simpl.
    + split; [split; [discriminate | intros [_ H]; discriminate H]|].
      intros err H. inversion H. eauto.
    + split; [split; auto|]. discriminate.
Qed.

Lemma Put_result_shape_witness :
  exists cause,
    WrapErr "put the object, " (AwsErr "AccessDenied" "Access Denied")
      = WrapErr "put the object, " cause /\
    (fst (UploadWithContext never_fails CtxLive
            (upload_input (sampleBackend zeroTime) "artifact/1.tar" []) emptyService)
       = Some cause \/
     fst (UploadWithContext never_fails CtxLive
            (upload_input (sampleBackend zeroTime) "artifact/1.tar" []) emptyService)
       = None /\
     fst (PutBucketLifecycleConfiguration
            (lifecycle_always_fails (AwsErr "AccessDenied" "Access Denied"))
            (lifecycle_input (sampleBackend zeroTime) "artifact/1.tar")
            (snd (UploadWithContext never_fails CtxLive
                    (upload_input (sampleBackend zeroTime) "artifact/1.tar" [])
                    emptyService)))
       = Some cause).
Proof.
  apply (proj2 (Put_result_shape never_fails
                  (lifecycle_always_fails (AwsErr "AccessDenied" "Access Denied"))
                  (sampleBackend zeroTime) CtxLive "artifact/1.tar" [] emptyService)).
  reflexivity.
Defined.

(** X7.  The first request of every [Put] is the upload, made with the
    caller's context, to the backend's bucket and the given key, with the
    backend's ACL and the given body.  It carries a server-side-encryption
    value exactly when the backend's encryption setting is non-empty, and
    then that setting. *)
Theorem Put_upload_request
    (upload_failure : Context -> UploadInput.t -> Service -> option error)
    (lifecycle_failure :
       PutBucketLifecycleConfigurationInput.t -> Service -> option error)
    (b : Backend) (ctx : Context) (p : string) (r : Body) (s : Service) :
  exists input rest,
    requests (snd (Put upload_failure lifecycle_failure b ctx p r s))
      = (requests s ++ ReqUpload ctx input :: rest)%list /\
    UploadInput.Bucket input = bucket b /\
    UploadInput.Key input = p /\
    UploadInput.ACL input = acl b /\
    UploadInput.Body input = r /\
    (UploadInput.ServerSideEncryption input = None <-> encryption b = "") /\
    (forall v, UploadInput.ServerSideEncryption input = Some v ->
               v = encryption b /\ v <> "").
Proof.
  eexists. eexists. split; [apply Put_requests|].
  unfold upload_input.
  destruct (nonempty (encryption b)) eqn:Henc;
    [apply nonempty_true in Henc | apply nonempty_false in Henc]; simpl;
    repeat split; try congruence; try discriminate.
Qed.

(** X8.  A [Put] touches one key and one bucket: every other object of the
    store and the lifecycle configuration of every other bucket are after
    the call what they were before, however the call ends; and no object
    that was in the store is missing afterwards. *)
Theorem Put_frame
    (upload_failure : Context -> UploadInput.t -> Service -> option error)
    (lifecycle_failure :
       PutBucketLifecycleConfigurationInput.t -> Service -> option error)
    (b : Backend) (ctx : Context) (p : string) (r : Body) (s : Service) :
  (forall k, k <> (bucket b, p) ->
     objects (snd (Put upload_failure lifecycle_failure b ctx p r s)) !! k
       = objects s !! k) /\
  (forall bkt, bkt <> bucket b ->
     lifecycles (snd (Put upload_failure lifecycle_failure b ctx p r s)) !! bkt
       = lifecycles s !! bkt) /\
  (forall k, is_Some (objects s !! k) ->
     is_Some (objects (snd (Put upload_failure lifecycle_failure b ctx p r s)) !! k)).
Proof.
  destruct (Put_store upload_failure lifecycle_failure b ctx p r s) as [Hobj Hlc].
  split; [|split].
  - intros k Hk. destruct Hobj as [-> | ->]; [reflexivity|].
    now rewrite lookup_insert_ne.
  - intros bkt Hbkt. destruct Hlc as [-> | ->]; [reflexivity|].
    now rewrite lookup_insert_ne.
  - intros k Hk.
    apply (Puts_keeps upload_failure lifecycle_failure b [(ctx, p, r)] s k) in Hk.
    simpl in Hk.
    destruct (Put upload_failure lifecycle_failure b ctx p r s). exact Hk.
Qed.

Lemma Put_frame_witness :
  objects (snd (Put never_fails lifecycle_never_fails (sampleBackend zeroTime)
                  CtxLive "artifact/2.tar" []
                  (store_object "cache" "artifact/1.tar" [] emptyService)))
    !! ("cache", "artifact/1.tar")
  = Some [].
Proof.
  etransitivity.
  - apply (proj1 (Put_frame never_fails lifecycle_never_fails (sampleBackend zeroTime)
                    CtxLive "artifact/2.tar" []
                    (store_object "cache" "artifact/1.tar" [] emptyService))
             ("cache", "artifact/1.tar")).
    intros H. inversion H.
  - apply lookup_insert_eq.
Defined.

Section ReliableStore.
Variable upload_failure : Context -> UploadInput.t -> Service -> option error.
Variable lifecycle_failure :
  PutBucketLifecycleConfigurationInput.t -> Service -> option error.
Hypothesis uploads_succeed : forall ctx input s, upload_failure ctx input s = None.
Hypothesis updates_succeed : forall input s, lifecycle_failure input s = None.
Variable b : Backend.

Lemma Put_reliable ctx p r s :
  fst (Put upload_failure lifecycle_failure b ctx p r s) = None /\
  objects (snd (Put upload_failure lifecycle_failure b ctx p r s)) !! (bucket b, p)
    = Some r /\
  lifecycles (snd (Put upload_failure lifecycle_failure b ctx p r s)) !! bucket b
    = Some {| Rules := [ {| Filter_Prefix := p; Expiration_Date := expiresAt b |} ] |}.
Proof.
  destruct (upload_input_target b p r) as (Hbkt & Hkey & Hbody).
  unfold Put, UploadWithContext, PutBucketLifecycleConfiguration.
  rewrite uploads_succeed, updates_succeed, Hbkt, Hkey, Hbody. simpl.
  repeat split; apply lookup_insert_eq.
Qed.

Lemma Puts_reliable_results calls s :
  Forall (fun res => res = None)
    (fst (Puts upload_failure lifecycle_failure b calls s)).
Proof.
  revert s. induction calls as [|[[ctx p] r] rest IH]; intros s; simpl.
  - constructor.
  - pose proof (Put_reliable ctx p r s) as (Hres & _).
    destruct (Put upload_failure lifecycle_failure b ctx p r s) as [res s1].
    specialize (IH s1).
    destruct (Puts upload_failure lifecycle_failure b rest s1) as [ress s2].
    simpl in *. constructor; assumption.
Qed.

Lemma Puts_reliable_stores calls s ctx p r :
  In (ctx, p, r) calls ->
  is_Some (objects (snd (Puts upload_failure lifecycle_failure b calls s))
             !! (bucket b, p)).
Proof.
  revert s. induction calls as [|[[ctx' p'] r'] rest IH]; intros s Hin; simpl.
  - destruct Hin.
  - pose proof (Put_reliable ctx' p' r' s) as (_ & Hobj & _).
    destruct (Put upload_failure lifecycle_failure b ctx' p' r' s) as [res s1].
    pose proof (Puts_keeps upload_failure lifecycle_failure b rest s1 (bucket b, p))
      as Hkeep.
    specialize (IH s1).
    destruct (Puts upload_failure lifecycle_failure b rest s1) as [ress s2].
    simpl in *. destruct Hin as [Heq | Hin].
    + inversion Heq; subst. apply Hkeep. rewrite Hobj. eauto.
    + now apply IH.
Qed.
End ReliableStore.

(** X9.  On a store that accepts every request, a run of [Put] calls
    through one backend returns nil for each call and leaves every key of
    the run in the store, the last key with the last body; but the
    lifecycle configuration of the bucket is then the single rule of the
    last call: each [Put] replaces the rules registered by the calls before
    it. *)
Theorem Puts_last_rule_wins
    (upload_failure : Context -> UploadInput.t -> Service -> option error)
    (lifecycle_failure :
       PutBucketLifecycleConfigurationInput.t -> Service -> option error)
    (b : Backend) (calls : list (Context * string * Body))
    (ctx : Context) (p : string) (r : Body) (s : Service) :
  (forall ctx input s, upload_failure ctx input s = None) ->
  (forall input s, lifecycle_failure input s = None) ->
  Forall (fun res => res = None)
    (fst (Puts upload_failure lifecycle_failure b (calls ++ [(ctx, p, r)])%list s)) /\
  (forall ctx' p' r',
     In (ctx', p', r') (calls ++ [(ctx, p, r)])%list ->
     is_Some (objects (snd (Puts upload_failure lifecycle_failure b
                              (calls ++ [(ctx, p, r)])%list s))
                !! (bucket b, p'))) /\
  objects (snd (Puts upload_failure lifecycle_failure b
                  (calls ++ [(ctx, p, r)])%list s))
    !! (bucket b, p) = Some r /\
  lifecycles (snd (Puts upload_failure lifecycle_failure b
                     (calls ++ [(ctx, p, r)])%list s))
    !! bucket b
    = Some {| Rules := [ {| Filter_Prefix := p; Expiration_Date := expiresAt b |} ] |}.
Proof.
  intros Hup Hlc. split; [|split].
  - now apply Puts_reliable_results.
  - intros ctx' p' r' Hin. now apply Puts_reliable_stores with (ctx := ctx') (r := r').
  - rewrite Puts_app.
    destruct (Puts upload_failure lifecycle_failure b calls s) as [res1 s1].
    simpl.
    pose proof (Put_reliable upload_failure lifecycle_failure Hup Hlc b ctx p r s1)
      as (_ & Hobj & Hrule).
    destruct (Put upload_failure lifecycle_failure b ctx p r s1) as [res s2].
    simpl in *. split; assumption.
Qed.

Lemma Puts_last_rule_wins_witness :
  lifecycles (snd (Puts never_fails lifecycle_never_fails
                     (sampleBackend (Add sampleNow hour))
                     ([(CtxLive, "artifact/1.tar", [])]
                        ++ [(CtxLive, "artifact/2.tar", [])])%list
                     emptyService))
    !! "cache"
  = Some {| Rules := [ {| Filter_Prefix := "artifact/2.tar";
                          Expiration_Date := Add sampleNow hour |} ] |}.
Proof.
  apply (Puts_last_rule_wins never_fails lifecycle_never_fails
           (sampleBackend (Add sampleNow hour))
           [(CtxLive, "artifact/1.tar", [])] CtxLive "artifact/2.tar" []
           emptyService).
  - reflexivity.
  - reflexivity.
Defined.

(** ** [Exists] *)

(** X10.  A probe failure that carries an AWS error code is classified by
    the code alone, compared as it is written: "NoSuchKey" and "NotFound"
    give [(false, nil)], every other code gives [false] and the failure
    wrapped with "head the object, ". *)
Theorem Exists_classifies_aws_codes
    (head_answer : Context -> HeadObjectInput.t -> Service -> HeadObjectOutput + error)
    (b : Backend) (ctx : Context) (p : string) (s : Service)
    (code message : string) :
  probe head_answer b ctx p s = inr (AwsErr code message) ->
  (code = "NoSuchKey" \/ code = "NotFound" ->
   fst (Exists head_answer b ctx p s) = Returns (false, None)) /\
  (code <> "NoSuchKey" -> code <> "NotFound" ->
   fst (Exists head_answer b ctx p s)
     = Returns (false, Some (WrapErr "head the object, " (AwsErr code message))) /\
   Unwrap (WrapErr "head the object, " (AwsErr code message))
     = Some (AwsErr code message)).
Proof.
  intros Hprobe. rewrite (Exists_aws_error _ _ _ _ _ _ _ Hprobe).
  unfold ErrCodeNoSuchKey.
  destruct (String.eqb_spec code "NoSuchKey") as [Hk|Hk];
    destruct (String.eqb_spec code "NotFound") as [Hn|Hn]; simpl;
    split; intros; try reflexivity; try contradiction; try tauto.
Qed.

Lemma Exists_classifies_aws_codes_witness :
  fst (Exists (head_answers (inr (AwsErr "NotFound" "Not Found")))
         (sampleBackend zeroTime) CtxLive "artifact/missing" emptyService)
    = Returns (false, None) /\
  fst (Exists (head_answers (inr (AwsErr "Forbidden" "Forbidden")))
         (sampleBackend zeroTime) CtxLive "artifact/1.tar" emptyService)
    = Returns (false, Some (WrapErr "head the object, " (AwsErr "Forbidden" "Forbidden"))).
Proof.
  split.
  - apply (proj1 (Exists_classifies_aws_codes
                    (head_answers (inr (AwsErr "NotFound" "Not Found")))
                    (sampleBackend zeroTime) CtxLive "artifact/missing" emptyService
                    "NotFound" "Not Found" eq_refl)).
    right. reflexivity.
  - apply (proj2 (Exists_classifies_aws_codes
                    (head_answers (inr (AwsErr "Forbidden" "Forbidden")))
                    (sampleBackend zeroTime) CtxLive "artifact/1.tar" emptyService
                    "Forbidden" "Forbidden" eq_refl)); discriminate.
Defined.

(** X11.  [Exists] panics in exactly two situations: the probe fails with an
    error that is not an [awserr.Error], or the probe succeeds with a nil
    [ETag].  In every other situation it returns. *)
Theorem Exists_panics_iff
    (head_answer : Context -> HeadObjectInput.t -> Service -> HeadObjectOutput + error)
    (b : Backend) (ctx : Context) (p : string) (s : Service) :
  (exists reason, fst (Exists head_answer b ctx p s) = Panics reason)
  <-> (exists err, probe head_answer b ctx p s = inr err /\ as_awserr err = None) \/
      probe head_answer b ctx p s = inl {| ETag := None |}.
Proof.
  rewrite Exists_of_probe.
  destruct (probe head_answer b ctx p s) as [[[etag|]]|err]; simpl.
  - split; [intros [reason H]; discriminate H|].
    intros [(err & H & _) | H]; discriminate H.
  - split; [auto | eauto].
  - destruct err as [code message| message | context cause]; simpl.
    + unfold is_not_found; simpl.
      destruct (code =? ErrCodeNoSuchKey); simpl;
        [|destruct (code =? "NotFound"); simpl];
        (split; [intros [reason H]; discriminate H|]);
        (intros [(err & H & Hno) | H]; [|discriminate H]);
        inversion H; subst; discriminate Hno.
    + split; [eauto | intros _; eexists; reflexivity].
    + split; [eauto | intros _; eexists; reflexivity].
Qed.

(** X12.  [Exists] answers true only for a probe that succeeded with a
    non-empty [ETag], and then without an error; it returns an error only
    for a failed probe, and then with [false] and the failure wrapped with
    "head the object, ". *)
Theorem Exists_result_shape
    (head_answer : Context -> HeadObjectInput.t -> Service -> HeadObjectOutput + error)
    (b : Backend) (ctx : Context) (p : string) (s : Service) :
  (forall e,
     fst (Exists head_answer b ctx p s) = Returns (true, e) ->
     e = None /\
     exists etag,
       probe head_answer b ctx p s = inl {| ETag := Some etag |} /\ etag <> "") /\
  (forall v e,
     fst (Exists head_answer b ctx p s) = Returns (v, Some e) ->
     v = false /\
     exists cause,
       probe head_answer b ctx p s = inr cause /\
       e = WrapErr "head the object, " cause).
Proof.
  rewrite Exists_of_probe.
  destruct (probe head_answer b ctx p s) as [[[etag|]]|err]; simpl.
  - split.
    + intros e H. inversion H as [[Hne He]]. split; [reflexivity|].
      exists etag. split; [reflexivity | now apply nonempty_true].
    + intros v e H. discriminate H.
  - split; intros; discriminate.
  - destruct (is_not_found err) as [[|]|reason]; simpl;
      split; intros; try discriminate.
    match goal with H : _ = Returns _ |- _ => inversion H; subst end.
    eauto.
Qed.

Lemma Exists_result_shape_witness :
  exists etag,
    probe (head_answers (inl {| ETag := Some "9b2cf535f27731c974343645a3985328" |}))
      (sampleBackend zeroTime) CtxLive "artifact/1.tar" emptyService
      = inl {| ETag := Some etag |} /\
    etag <> "".
Proof.
  apply (proj1 (Exists_result_shape
                  (head_answers (inl {| ETag := Some "9b2cf535f27731c974343645a3985328" |}))
                  (sampleBackend zeroTime) CtxLive "artifact/1.tar" emptyService)
           None).
  reflexivity.
Defined.

Lemma sampleHead_answers_from_objects : answers_from_objects sampleHead.
Proof.
  intros ctx input s. unfold sampleHead.
  destruct (objects s !! _).
  - eexists. split; [|reflexivity]. discriminate.
  - eexists. reflexivity.
Qed.

Lemma Put_uploaded
    (upload_failure : Context -> UploadInput.t -> Service -> option error)
    (lifecycle_failure :
       PutBucketLifecycleConfigurationInput.t -> Service -> option error)
    (b : Backend) (ctx : Context) (p : string) (r : Body) (s : Service) :
  fst (UploadWithContext upload_failure ctx (upload_input b p r) s) = None ->
  objects (snd (Put upload_failure lifecycle_failure b ctx p r s)) !! (bucket b, p)
    = Some r.
Proof.
  unfold Put.
  destruct (upload_input_target b p r) as (Hbkt & Hkey & Hbody).
  destruct (UploadWithContext upload_failure ctx (upload_input b p r) s)
    as [[err|] s1] eqn:Hup; simpl; [discriminate|]. intros _.
  apply UploadWithContext_ok in Hup. rewrite Hbkt, Hkey, Hbody in Hup.
  destruct (PutBucketLifecycleConfiguration lifecycle_failure (lifecycle_input b p) s1)
    as [[err|] s2] eqn:Hlc; simpl.
  - apply PutBucketLifecycleConfiguration_failed in Hlc. subst.
    apply lookup_insert_eq.
  - apply PutBucketLifecycleConfiguration_ok in Hlc. subst.
    apply lookup_insert_eq.
Qed.

(** X13.  Against a store whose HEAD answers agree with the objects it
    holds, [Exists] returns [(false, nil)] for a key the store does not hold
    and [(true, nil)] for one it holds; in particular it returns
    [(true, nil)] for a key after any [Put] of that key whose upload
    succeeded, also when that [Put] returned an error because the lifecycle
    update failed. *)
Theorem Exists_on_conforming_store
    (upload_failure : Context -> UploadInput.t -> Service -> option error)
    (lifecycle_failure :
       PutBucketLifecycleConfigurationInput.t -> Service -> option error)
    (head_answer : Context -> HeadObjectInput.t -> Service -> HeadObjectOutput + error)
    (b : Backend) (ctx ctx' : Context) (p : string) (r : Body) (s : Service) :
  answers_from_objects head_answer ->
  (objects s !! (bucket b, p) = None ->
   fst (Exists head_answer b ctx p s) = Returns (false, None)) /\
  (is_Some (objects s !! (bucket b, p)) ->
   fst (Exists head_answer b ctx p s) = Returns (true, None)) /\
  (fst (UploadWithContext upload_failure ctx (upload_input b p r) s) = None ->
   fst (Exists head_answer b ctx' p
          (snd (Put upload_failure lifecycle_failure b ctx p r s)))
     = Returns (true, None)).
Proof.
  intros Hconf.
  assert (Hheld : forall c s0, is_Some (objects s0 !! (bucket b, p)) ->
                    fst (Exists head_answer b c p s0) = Returns (true, None)).
  { intros c s0 [v Hv]. rewrite Exists_of_probe.
    unfold probe, HeadObjectWithContext. simpl.
    specialize (Hconf c (HeadObjectInput.mk (bucket b) p)
                  (received (ReqHeadObject c (HeadObjectInput.mk (bucket b) p)) s0)).
    simpl in Hconf. rewrite Hv in Hconf. destruct Hconf as (etag & Hne & ->).
    simpl. apply nonempty_true in Hne. now rewrite Hne. }
  split; [|split].
  - intros Hmiss. rewrite Exists_of_probe.
    unfold probe, HeadObjectWithContext. simpl.
    specialize (Hconf ctx (HeadObjectInput.mk (bucket b) p)
                  (received (ReqHeadObject ctx (HeadObjectInput.mk (bucket b) p)) s)).
    simpl in Hconf. rewrite Hmiss in Hconf. destruct Hconf as (message & ->).
    reflexivity.
  - apply Hheld.
  - intros Hup. apply Hheld.
    rewrite (Put_uploaded upload_failure lifecycle_failure b ctx p r s Hup). eauto.
Qed.

Lemma Exists_on_conforming_store_witness :
  fst (Exists sampleHead (sampleBackend zeroTime) CtxLive "artifact/missing"
         emptyService)
    = Returns (false, None) /\
  fst (Exists sampleHead (sampleBackend zeroTime) CtxLive "artifact/1.tar"
         (snd (Put never_fails
                 (lifecycle_always_fails (AwsErr "AccessDenied" "Access Denied"))
                 (sampleBackend zeroTime) CtxLive "artifact/1.tar" [] emptyService)))
    = Returns (true, None).
Proof.
  split.
  - apply (proj1 (Exists_on_conforming_store never_fails lifecycle_never_fails
                    sampleHead (sampleBackend zeroTime) CtxLive CtxLive
                    "artifact/missing" [] emptyService
                    sampleHead_answers_from_objects)).
    apply lookup_empty.
  - apply (proj2 (proj2 (Exists_on_conforming_store never_fails
                           (lifecycle_always_fails (AwsErr "AccessDenied" "Access Denied"))
                           sampleHead (sampleBackend zeroTime) CtxLive CtxLive
                           "artifact/1.tar" [] emptyService
                           sampleHead_answers_from_objects))).
    reflexivity.
Defined.

(** ** [Get] *)

Section MoreGetFacts.
Variable fetched : GetObjectOutput + error.
Variable copied : option error.
Variable cause : CtxCause.

Lemma cleanup_inv_start : cleanup_inv fetched copied cause get_start.
Proof.
  unfold cleanup_inv. simpl. repeat split; try discriminate.
Qed.

Lemma ctx_error_not_transfer :
  Some (ctx_error cause) <> transfer_result fetched copied.
Proof.
  unfold transfer_result.
  destruct cause, fetched, copied; discriminate.
Qed.

Lemma step_cleanup_inv (m : Move) (s s' : GetState) :
  cleanup_inv fetched copied cause s ->
  step fetched copied cause m s = Some s' ->
  cleanup_inv fetched copied cause s'.
Proof.
  destruct s as [g closed bclosed cs ret].
  unfold cleanup_inv, step, transfer_result, past_send; simpl.
  intros (Hctx & Hclosed & Hret & Hpc) Hstep.
  destruct m;
    [ destruct g as [|err body_open| | | |];
      [ destruct fetched as [out|err] eqn:Hf
      | destruct ret; [|destruct body_open]
      | destruct copied as [err|] eqn:Hc
      | | | ]
    | destruct cs
    | destruct ret; destruct closed; [| | destruct g |]
    | destruct ret; destruct cs; [| | | destruct g ] ];
    try discriminate; inversion Hstep; subst; clear Hstep; simpl.
  all: try (destruct fetched; destruct copied).
  all: try naive_solver.
Qed.

Lemma run_cleanup_inv (sched : list Move) (s s' : GetState) :
  cleanup_inv fetched copied cause s ->
  run fetched copied cause sched s = Some s' ->
  cleanup_inv fetched copied cause s'.
Proof.
  revert s. induction sched as [|m sched IH]; intros s Hinv; simpl.
  - intros H. inversion H. now subst.
  - destruct (step fetched copied cause m s) as [s1|] eqn:Hstep; [|discriminate].
    apply IH. eapply step_cleanup_inv; eauto.
Qed.

Lemma run_returned (sched : list Move) (s s' : GetState) (r : option error) :
  returned s = Some r ->
  run fetched copied cause sched s = Some s' ->
  returned s' = Some r.
Proof.
  revert s. induction sched as [|m sched IH]; intros s Hr; simpl.
  - intros H. inversion H. now subst.
  - destruct (step fetched copied cause m s) as [s1|] eqn:Hstep; [|discriminate].
    apply IH. eapply step_returned; eauto.
Qed.



(** Unless the caller has left with the context's error while the goroutine
    has an error to send, the goroutine can run to its end. *)
Lemma get_cleans_up (s : GetState) :
  cleanup_inv fetched copied cause s ->
  (returned s = Some (Some (ctx_error cause)) ->
   transfer_result fetched copied = None) ->
  exists more s',
    run fetched copied cause more s = Some s' /\ goroutine s' = Exited.
Proof.
  destruct s as [g closed bclosed cs ret].
  unfold cleanup_inv, transfer_result, past_send; simpl.
  intros (_ & _ & Hret & Hpc) Hleft.
  assert (Hwaiting : (exists out, fetched = inl out) /\ copied = None \/ ret = None
                     \/ past_send g).
  { destruct ret as [r|]; [|auto].
    destruct (Hret r eq_refl) as [[-> _] | (_ & Hpast & _)]; [|auto].
    left. specialize (Hleft eq_refl).
    destruct fetched; [|discriminate]. destruct copied; [discriminate|]. eauto. }
  destruct g as [|err body_open| | | |].
  - destruct fetched as [out|err] eqn:Hf; [destruct copied as [err|] eqn:Hc|].
    + destruct Hwaiting as [[_ H] | [-> | []]]; [discriminate|].
      exists [RunGoroutine; RunGoroutine; RunGoroutine; RunGoroutine; RunGoroutine].
      simpl. eexists. split; reflexivity.
    + exists [RunGoroutine; RunGoroutine; RunGoroutine; RunGoroutine].
      simpl. eexists. split; reflexivity.
    + destruct Hwaiting as [[[out H] _] | [-> | []]]; [discriminate|].
      exists [RunGoroutine; RunGoroutine; RunGoroutine].
      simpl. eexists. split; reflexivity.
  - destruct Hpc as (_ & Herr & _).
    destruct Hwaiting as [[[out Hf] Hc] | [-> | []]].
    + rewrite Hf, Hc in Herr. discriminate.
    + destruct body_open.
      * exists [RunGoroutine; RunGoroutine; RunGoroutine].
        simpl. eexists. split; reflexivity.
      * exists [RunGoroutine; RunGoroutine].
        simpl. eexists. split; reflexivity.
  - destruct copied as [err|] eqn:Hc.
    + destruct Hwaiting as [[_ H] | [-> | []]]; [discriminate|].
      exists [RunGoroutine; RunGoroutine; RunGoroutine; RunGoroutine].
      simpl. eexists. split; reflexivity.
    + exists [RunGoroutine; RunGoroutine; RunGoroutine].
      simpl. eexists. split; reflexivity.
  - exists [RunGoroutine; RunGoroutine]. simpl. eexists. split; reflexivity.
  - exists [RunGoroutine]. simpl. eexists. split; reflexivity.
  - exists []. simpl. eexists. split; reflexivity.
Qed.
End MoreGetFacts.



(** X15.  When [Get] has returned the context's error and the transfer
    fails (the fetch, or the copy after it), the goroutine never exits: it
    stays at or before its send on the unbuffered channel, the channel is
    never closed and the response body is never closed, in the state reached
    and in every state after it. *)
Theorem Get_cancelled_goroutine_never_exits
    (get_answer : GetObjectInput.t -> GetObjectOutput + error)
    (copied : option error) (cause : CtxCause)
    (b : Backend) (p : string) (sched more : list Move) (s s' : GetState) :
  Get get_answer copied cause b p sched = Some s ->
  returned s = Some (Some (ctx_error cause)) ->
  transfer_result (get_answer (get_input b p)) copied <> None ->
  Get get_answer copied cause b p (sched ++ more)%list = Some s' ->
  ~ past_send (goroutine s') /\
  errCh_closed s' = false /\
  body_closed s' = false.
Proof.
  unfold Get. generalize (get_answer (get_input b p)).
  intros fetched Hrun Hret Hfails Hmore.
  rewrite run_app, Hrun in Hmore.
  pose proof (run_returned fetched copied cause more s s' _ Hret Hmore) as Hret'.
  pose proof (run_cleanup_inv fetched copied cause _ _ _
                (cleanup_inv_start fetched copied cause) Hrun) as Hinv.
  pose proof (run_cleanup_inv fetched copied cause _ _ _ Hinv Hmore) as Hinv'.
  pose proof (ctx_error_not_transfer fetched copied cause) as Hdiff.
  destruct s' as [g closed bclosed cs ret].
  unfold cleanup_inv in Hinv'. simpl in *.
  destruct Hinv' as (_ & Hclosed & _ & Hpc).
  assert (Hopen : g <> Exited -> closed = false).
  { intros Hg. destruct closed; [|reflexivity].
    exfalso. apply Hg. now apply Hclosed. }
  destruct g as [|err body_open| | | |]; simpl.
  - repeat split; auto; try (apply Hopen; discriminate).
  - destruct Hpc as (Hb & _). repeat split; auto; try (apply Hopen; discriminate).
  - destruct Hpc as (Hb & _). repeat split; auto; try (apply Hopen; discriminate).
  - destruct Hpc as (_ & _ & Hdel). specialize (Hdel Hfails). congruence.
  - destruct Hpc as (_ & Hdel). specialize (Hdel Hfails). congruence.
  - destruct Hpc as (_ & Hdel). specialize (Hdel Hfails). congruence.
Qed.

Lemma Get_cancelled_goroutine_never_exits_witness :
  body_closed
    {| goroutine := AtSend (WrapErr "copy the object, " (OtherErr "short write")) true;
       errCh_closed := false;
       body_closed := false;
       ctx_state := CtxDone (ctx_error Canceled);
       returned := Some (Some (ctx_error Canceled)) |}
  = false.
Proof.
  apply (Get_cancelled_goroutine_never_exits
           (fun _ => inl {| Output_Body := [] |}) (Some (OtherErr "short write"))
           Canceled (sampleBackend zeroTime) "artifact/1.tar"
           [RunGoroutine; Cancel; ReceiveDone] [RunGoroutine]
           {| goroutine := AtCopy;
              errCh_closed := false;
              body_closed := false;
              ctx_state := CtxDone (ctx_error Canceled);
              returned := Some (Some (ctx_error Canceled)) |}
           {| goroutine := AtSend (WrapErr "copy the object, " (OtherErr "short write")) true;
              errCh_closed := false;
              body_closed := false;
              ctx_state := CtxDone (ctx_error Canceled);
              returned := Some (Some (ctx_error Canceled)) |}).
  - reflexivity.
  - reflexivity.
  - discriminate.
  - reflexivity.
Defined.

(** X16.  In every other case the goroutine can run to its end: unless
    [Get] has returned the context's error while the transfer fails, there
    is a continuation of the schedule after which the goroutine has exited,
    the channel is closed and, if the fetch gave a response, its body is
    closed. *)
Theorem Get_goroutine_can_exit
    (get_answer : GetObjectInput.t -> GetObjectOutput + error)
    (copied : option error) (cause : CtxCause)
    (b : Backend) (p : string) (sched : list Move) (s : GetState) :
  Get get_answer copied cause b p sched = Some s ->
  (returned s = Some (Some (ctx_error cause)) ->
   transfer_result (get_answer (get_input b p)) copied = None) ->
  exists more s',
    Get get_answer copied cause b p (sched ++ more)%list = Some s' /\
    goroutine s' = Exited /\
    errCh_closed s' = true /\
    ((exists out, get_answer (get_input b p) = inl out) -> body_closed s' = true).
Proof.
  unfold Get. generalize (get_answer (get_input b p)).
  intros fetched Hrun Hok.
  pose proof (run_cleanup_inv fetched copied cause _ _ _
                (cleanup_inv_start fetched copied cause) Hrun) as Hinv.
  destruct (get_cleans_up fetched copied cause s Hinv Hok) as (more & s' & Hmore & Hg).
  exists more, s'.
  pose proof (run_cleanup_inv fetched copied cause _ _ _ Hinv Hmore) as Hinv'.
  rewrite run_app, Hrun. split; [exact Hmore|]. split; [exact Hg|].
  unfold cleanup_inv in Hinv'. rewrite Hg in Hinv'.
  destruct Hinv' as (_ & Hclosed & _ & Hbody & _).
  split; [now apply Hclosed | exact Hbody].
Qed.

Lemma Get_goroutine_can_exit_witness :
  exists more s',
    Get (fun _ => inr (AwsErr "NoSuchKey" "The specified key does not exist."))
      None Canceled (sampleBackend zeroTime) "artifact/missing"
      ([RunGoroutine] ++ more)%list = Some s' /\
    goroutine s' = Exited /\
    errCh_closed s' = true /\
    ((exists out,
        (inr (AwsErr "NoSuchKey" "The specified key does not exist.")
         : GetObjectOutput + error) = inl out) ->
     body_closed s' = true).
Proof.
  apply (Get_goroutine_can_exit
           (fun _ => inr (AwsErr "NoSuchKey" "The specified key does not exist."))
           None Canceled (sampleBackend zeroTime) "artifact/missing" [RunGoroutine]
           {| goroutine := AtSend (WrapErr "get the object, "
                                     (AwsErr "NoSuchKey" "The specified key does not exist."))
                             false;
              errCh_closed := false;
              body_closed := false;
              ctx_state := CtxLive;
              returned := None |}).
  - reflexivity.
  - discriminate.
Defined.

(** X17.  When [Get] returns nil the cleanup is over: the goroutine has
    exited, the channel is closed and the response body has been closed. *)
Theorem Get_nil_after_cleanup
    (get_answer : GetObjectInput.t -> GetObjectOutput + error)
    (copied : option error) (cause : CtxCause)
    (b : Backend) (p : string) (sched : list Move) (s : GetState) :
  Get get_answer copied cause b p sched = Some s ->
  returned s = Some None ->
  goroutine s = Exited /\ errCh_closed s = true /\ body_closed s = true.
Proof.
  unfold Get. generalize (get_answer (get_input b p)).
  intros fetched Hrun Hret.
  pose proof (run_cleanup_inv fetched copied cause _ _ _
                (cleanup_inv_start fetched copied cause) Hrun) as Hinv.
  unfold cleanup_inv in Hinv.
  destruct Hinv as (_ & Hclosed & Hr & Hpc).
  destruct (Hr None Hret) as [[H _] | (Hres & _ & Hg)]; [discriminate|].
  specialize (Hg eq_refl). rewrite Hg in Hpc. destruct Hpc as (Hbody & _).
  split; [exact Hg|]. split; [now apply Hclosed|].
  apply Hbody. unfold transfer_result in Hres.
  destruct fetched as [out|err]; [eauto | discriminate].
Qed.

Lemma Get_nil_after_cleanup_witness :
  body_closed
    {| goroutine := Exited;
       errCh_closed := true;
       body_closed := true;
       ctx_state := CtxLive;
       returned := Some None |}
  = true.
Proof.
  apply (Get_nil_after_cleanup (fun _ => inl {| Output_Body := [] |}) None Canceled
           (sampleBackend zeroTime) "artifact/1.tar"
           [RunGoroutine; RunGoroutine; RunGoroutine; RunGoroutine; ReceiveClosed]
           {| goroutine := Exited;
              errCh_closed := true;
              body_closed := true;
              ctx_state := CtxLive;
              returned := Some None |}).
  - reflexivity.
  - reflexivity.
Defined.

(** X18.  As long as the context is not done, what [Get] returns is fixed
    by the transfer alone: nil when the fetch and the copy succeed, else the
    wrapped error of the first of the two that failed; a copy error is
    reported only when the fetch succeeded. *)
Theorem Get_without_cancellation
    (get_answer : GetObjectInput.t -> GetObjectOutput + error)
    (copied : option error) (cause : CtxCause)
    (b : Backend) (p : string) (sched : list Move) (s : GetState) (r : option error) :
  Get get_answer copied cause b p sched = Some s ->
  ctx_state s = CtxLive ->
  returned s = Some r ->
  r = transfer_result (get_answer (get_input b p)) copied.
Proof.
  unfold Get. generalize (get_answer (get_input b p)).
  intros fetched Hrun Hlive Hret.
  pose proof (run_cleanup_inv fetched copied cause _ _ _
                (cleanup_inv_start fetched copied cause) Hrun) as Hinv.
  destruct Hinv as (_ & _ & Hr & _).
  destruct (Hr r Hret) as [[_ Hdone] | (Hres & _)]; [congruence | exact Hres].
Qed.

Lemma Get_without_cancellation_witness :
  Some (WrapErr "copy the object, " (OtherErr "short write"))
  = transfer_result (inl {| Output_Body := [] |}) (Some (OtherErr "short write")).
Proof.
  apply (Get_without_cancellation (fun _ => inl {| Output_Body := [] |})
           (Some (OtherErr "short write")) Canceled
           (sampleBackend zeroTime) "artifact/1.tar"
           [RunGoroutine; RunGoroutine; RunGoroutine]
           {| goroutine := AtCloseBody;
              errCh_closed := false;
              body_closed := false;
              ctx_state := CtxLive;
              returned := Some (Some (WrapErr "copy the object, " (OtherErr "short write"))) |}).
  - reflexivity.
  - reflexivity.
  - reflexivity.
Defined.
